(** * Project membership and health roll-up of the Headlamp "Projects" feature

    A shallow embedding of [frontend/src/components/project/projectUtils.ts]
    (the selector matcher [matchesProject], the filter [getProjectResources],
    the count-by [getResourcesHealth] and the icon choice [getHealthIcon])
    together with the records of [frontend/src/redux/projectsSlice.ts] that
    these functions read.

    JavaScript values are modelled as follows.
    - a [string] property is a [string]; an optional property, or one read
      through optional chaining [a?.b], is an [option];
    - a plain object used as a dictionary ([metadata.labels],
      [labelSelectors], the result of lodash's [countBy]) is a [gmap] with
      string keys; [Object.entries] is [map_to_list];
    - [===] between a possibly undefined value and a string is
      [bool_decide] of an equation in [option string];
    - [Array.prototype.some], [every] and [filter] are [existsb], [forallb]
      and [List.filter];
    - a [number] holding a count is a [Z]. *)

From Stdlib Require Import ZArith String List Bool Lia.
From stdpp Require Import base option gmap strings list fin_maps.

Local Open Scope string_scope.

(** ** Data model *)

(** [lib/k8s/api/v2/ApiResource]: the fields that the literals of
    [defaultApiResources] carry. The matcher reads [kind] only. *)
Module ApiResource.
Record t : Type := mk {
  apiVersion : string;
  version : string;
  pluralName : string;
  singularName : string;
  kind : string;
  isNamespaced : bool
}.
End ApiResource.

(** [resource.metadata]: both properties read by the matcher are optional. *)
Module KubeMetadata.
Record t : Type := mk {
  namespace : option string;
  labels : option (gmap string string)
}.
End KubeMetadata.

(** [lib/k8s/KubeObject]: the properties read by the matcher. [metadata] is
    read through [?.] everywhere, hence optional. *)
Module KubeObject.
Record t : Type := mk {
  kind : string;
  cluster : string;
  metadata : option KubeMetadata.t
}.
End KubeObject.

(** [projectsSlice.StringSelector]. The declared type of [operator] is
    ['Equals' | 'NotEquals'], but the form stores whatever string the
    operator menu yields and [matchesLabelSelector] has a [default] branch,
    so the operator is kept as the string it is at run time. *)
Module StringSelector.
Record t : Type := mk {
  operator : string;
  value : string
}.
End StringSelector.

(** [projectsSlice.ProjectDefinition]. *)
Module ProjectDefinition.
Record t : Type := mk {
  id : string;
  name : string;
  description : option string;
  color : option string;
  icon : option string;
  labelSelectors : gmap string StringSelector.t;
  namespaceSelectors : list StringSelector.t;
  clusterSelectors : list StringSelector.t;
  apiResources : list ApiResource.t;
  createdAt : string;
  updatedAt : string
}.
End ProjectDefinition.

(** ** projectUtils.ts *)

(** [getHealthIcon]: three tests in sequence, first hit wins. *)
Definition getHealthIcon (healthy unhealthy warning : Z) : string :=
  if (healthy + unhealthy + warning =? 0)%Z then "mdi:help-circle"
  else if (0 <? unhealthy)%Z then "mdi:alert-circle"
  else if (0 <? warning)%Z then "mdi:alert"
  else "mdi:check-circle".


(** lodash's [countBy(collection, iteratee)]: an object with one key per
    value the iteratee takes on the collection, holding how many elements
    produced it. A key that no element produces is not set. *)
Definition countBy {A : Type} (collection : list A) (iteratee : A -> string)
  : gmap string Z :=
  foldl
    (fun result item =>
       let key := iteratee item in
       match result !! key with
       | Some n => <[key := (n + 1)%Z]> result
       | None => <[key := 1%Z]> result
       end)
    ∅ collection.

(** [getResourcesHealth]. The classifier [getStatus] lives in
    [resourceMap/nodes/KubeObjectStatus] and is taken as a parameter; it
    yields one of the strings ["success"], ["warning"], ["error"]. *)
Definition getResourcesHealth (getStatus : KubeObject.t -> string)
    (resources : list KubeObject.t) : gmap string Z :=
  countBy resources getStatus.

(** [resource.metadata?.labels || {}]. A lookup [labels[key]] that finds no
    own property may find one inherited from [Object.prototype]; such a
    value is never a string, so it compares with a selector's value exactly
    like [undefined], which is [None] here. *)
Definition resourceLabels (resource : KubeObject.t) : gmap string string :=
  default ∅ (KubeObject.metadata resource ≫= KubeMetadata.labels).

(** [resource.metadata?.namespace]. *)
Definition resourceNamespace (resource : KubeObject.t) : option string :=
  KubeObject.metadata resource ≫= KubeMetadata.namespace.

(** [matchesLabelSelector]: a [switch] on the operator string. *)
Definition matchesLabelSelector (resource : KubeObject.t) (key : string)
    (selector : StringSelector.t) : bool :=
  let labels := resourceLabels resource in
  let labelValue := labels !! key in
  if bool_decide (StringSelector.operator selector = "Equals") then
    bool_decide (labelValue = Some (StringSelector.value selector))
  else if bool_decide (StringSelector.operator selector = "NotEquals") then
    negb (bool_decide (labelValue = Some (StringSelector.value selector)))
  else false.

(** The four local constants of [matchesProject]. *)
Definition matchesApiResource (resource : KubeObject.t)
    (project : ProjectDefinition.t) : bool :=
  existsb
    (fun apiResource =>
       bool_decide (ApiResource.kind apiResource = KubeObject.kind resource))
    (ProjectDefinition.apiResources project).

Definition matchesCluster (resource : KubeObject.t)
    (project : ProjectDefinition.t) : bool :=
  existsb
    (fun cluster =>
       bool_decide (StringSelector.value cluster = KubeObject.cluster resource))
    (ProjectDefinition.clusterSelectors project).

Definition matchesNamespace (resource : KubeObject.t)
    (project : ProjectDefinition.t) : bool :=
  let resourceNamespace := resourceNamespace resource in
  existsb
    (fun ns => bool_decide (Some (StringSelector.value ns) = resourceNamespace))
    (ProjectDefinition.namespaceSelectors project).

Definition matchesLabels (resource : KubeObject.t)
    (project : ProjectDefinition.t) : bool :=
  forallb
    (fun entry => matchesLabelSelector resource (fst entry) (snd entry))
    (map_to_list (ProjectDefinition.labelSelectors project)).

(** [matchesProject]: each [if (...) { ...; if (!m) return false; }] block of
    the source is one early exit here, in the source's order. *)
Definition matchesProject (resource : KubeObject.t)
    (project : ProjectDefinition.t) : bool :=
  if (0 <? length (ProjectDefinition.apiResources project))%nat
     && negb (matchesApiResource resource project) then false
  else if (0 <? length (ProjectDefinition.clusterSelectors project))%nat
     && negb (matchesCluster resource project) then false
  else if (0 <? length (ProjectDefinition.namespaceSelectors project))%nat
     && negb (matchesNamespace resource project) then false
  else if (0 <? length (map_to_list (ProjectDefinition.labelSelectors project)))%nat
     && negb (matchesLabels resource project) then false
  else if (length (map_to_list (ProjectDefinition.labelSelectors project)) =? 0)%nat
     && (length (ProjectDefinition.namespaceSelectors project) =? 0)%nat then false
  else true.

(** [getProjectsForResource]; [Object.values] of the project table is given
    as the list it yields. *)
Definition getProjectsForResource (resource : KubeObject.t)
    (projects : list ProjectDefinition.t) : list ProjectDefinition.t :=
  List.filter (fun project => matchesProject resource project) projects.

(** [getProjectResources]. *)
Definition getProjectResources (project : ProjectDefinition.t)
    (resources : list KubeObject.t) : list KubeObject.t :=
  List.filter (fun resource => matchesProject resource project) resources.

(** ** Conditions of the four selector groups, as propositions *)

(** [resource.kind] is the [kind] of some entry of [apiResources]. *)
Definition kindAllowed (resource : KubeObject.t)
    (project : ProjectDefinition.t) : Prop :=
  ∃ apiResource, apiResource ∈ ProjectDefinition.apiResources project
    ∧ ApiResource.kind apiResource = KubeObject.kind resource.

(** Some cluster selector carries the resource's cluster as its value. *)
Definition clusterListed (resource : KubeObject.t)
    (project : ProjectDefinition.t) : Prop :=
  ∃ selector, selector ∈ ProjectDefinition.clusterSelectors project
    ∧ StringSelector.value selector = KubeObject.cluster resource.

(** Some namespace selector carries the resource's namespace as its value. *)
Definition namespaceListed (resource : KubeObject.t)
    (project : ProjectDefinition.t) : Prop :=
  ∃ selector, selector ∈ ProjectDefinition.namespaceSelectors project
    ∧ Some (StringSelector.value selector) = resourceNamespace resource.

(** Every (key, selector) entry of [labelSelectors] accepts the resource. *)
Definition labelsHold (resource : KubeObject.t)
    (project : ProjectDefinition.t) : Prop :=
  ∀ key selector,
    ProjectDefinition.labelSelectors project !! key = Some selector →
    matchesLabelSelector resource key selector = true.

(** The conditions of all groups that are not empty. *)
Definition groupsHold (resource : KubeObject.t)
    (project : ProjectDefinition.t) : Prop :=
  (ProjectDefinition.apiResources project ≠ [] → kindAllowed resource project)
  ∧ (ProjectDefinition.clusterSelectors project ≠ [] →
     clusterListed resource project)
  ∧ (ProjectDefinition.namespaceSelectors project ≠ [] →
     namespaceListed resource project)
  ∧ (ProjectDefinition.labelSelectors project ≠ ∅ →
     labelsHold resource project).

(** The conditions of the groups can be evaluated. *)
Definition groupsHoldb (resource : KubeObject.t)
    (project : ProjectDefinition.t) : bool :=
  negb ((0 <? length (ProjectDefinition.apiResources project))%nat
        && negb (matchesApiResource resource project))
  && negb ((0 <? length (ProjectDefinition.clusterSelectors project))%nat
           && negb (matchesCluster resource project))
  && negb ((0 <? length (ProjectDefinition.namespaceSelectors project))%nat
           && negb (matchesNamespace resource project))
  && negb ((0 <? length (map_to_list (ProjectDefinition.labelSelectors project)))%nat
           && negb (matchesLabels resource project)).

(** ** The specification's reading of a selector

    The definitions of this part follow the words of the specification, not
    the code: a selector is evaluated according to its operator, [Equals]
    being value equality and [NotEquals] value inequality. They are compared
    with the code's [matchesCluster] and [matchesNamespace] below. *)

Definition specSelectorHolds (selector : StringSelector.t)
    (actual : option string) : bool :=
  if bool_decide (StringSelector.operator selector = "Equals") then
    bool_decide (actual = Some (StringSelector.value selector))
  else if bool_decide (StringSelector.operator selector = "NotEquals") then
    negb (bool_decide (actual = Some (StringSelector.value selector)))
  else false.

Definition specClusterHolds (resource : KubeObject.t)
    (project : ProjectDefinition.t) : Prop :=
  ∃ selector, selector ∈ ProjectDefinition.clusterSelectors project
    ∧ specSelectorHolds selector (Some (KubeObject.cluster resource)) = true.

Definition specNamespaceHolds (resource : KubeObject.t)
    (project : ProjectDefinition.t) : Prop :=
  ∃ selector, selector ∈ ProjectDefinition.namespaceSelectors project
    ∧ specSelectorHolds selector (resourceNamespace resource) = true.

(** The conditions of all non-empty groups, selectors read by operator. *)
Definition specGroupsHold (resource : KubeObject.t)
    (project : ProjectDefinition.t) : Prop :=
  (ProjectDefinition.apiResources project ≠ [] → kindAllowed resource project)
  ∧ (ProjectDefinition.clusterSelectors project ≠ [] →
     specClusterHolds resource project)
  ∧ (ProjectDefinition.namespaceSelectors project ≠ [] →
     specNamespaceHolds resource project)
  ∧ (ProjectDefinition.labelSelectors project ≠ ∅ →
     labelsHold resource project).

(** At least one of the four groups is not empty. *)
Definition someGroupNonEmpty (project : ProjectDefinition.t) : Prop :=
  ProjectDefinition.apiResources project ≠ []
  ∨ ProjectDefinition.clusterSelectors project ≠ []
  ∨ ProjectDefinition.namespaceSelectors project ≠ []
  ∨ ProjectDefinition.labelSelectors project ≠ ∅.

(** The health record the specification gives for no resources. *)
Definition specEmptyHealth : gmap string Z :=
  {[ "success" := 0%Z; "warning" := 0%Z; "error" := 0%Z ]}.

(** ** Resources with a missing [metadata] or [labels] *)

(** The resource with its labels replaced by the empty mapping; every other
    property, the namespace included, is read as before. *)
Definition withEmptyLabels (resource : KubeObject.t) : KubeObject.t :=
  KubeObject.mk (KubeObject.kind resource) (KubeObject.cluster resource)
    (Some (KubeMetadata.mk (resourceNamespace resource) (Some ∅))).

(** [metadata], or [metadata.labels], is absent. *)
Definition labelsMissing (resource : KubeObject.t) : Prop :=
  KubeObject.metadata resource ≫= KubeMetadata.labels = None.

(** ** Sample values, after the fixtures of [projectUtils.test.ts] *)

Definition selector (operator value : string) : StringSelector.t :=
  StringSelector.mk operator value.

(** [baseProject] of the tests with the four groups filled in. *)
Definition makeProject (labelSelectors : gmap string StringSelector.t)
    (namespaceSelectors clusterSelectors : list StringSelector.t)
    (apiResources : list ApiResource.t) : ProjectDefinition.t :=
  ProjectDefinition.mk "p" "proj" (Some "") (Some "#1976d2")
    (Some "mdi:application") labelSelectors namespaceSelectors
    clusterSelectors apiResources "2025-01-01T00:00:00.000Z"
    "2025-01-01T00:00:00.000Z".

(** [makeDeployment] of the tests. *)
Definition makeDeployment (namespace : option string)
    (labels : gmap string string) (cluster : string) : KubeObject.t :=
  KubeObject.mk "Deployment" cluster
    (Some (KubeMetadata.mk namespace (Some labels))).

(** A resource whose [metadata] is absent altogether. *)
Definition bareResource (kind cluster : string) : KubeObject.t :=
  KubeObject.mk kind cluster None.

Definition deploymentsApi : ApiResource.t :=
  ApiResource.mk "apps/v1" "v1" "deployments" "deployment" "Deployment" true.

Definition shopDeployment : KubeObject.t :=
  makeDeployment (Some "default") {[ "app" := "shop" ]} "cluster-a".

Definition shopProject : ProjectDefinition.t :=
  makeProject {[ "app" := selector "Equals" "shop" ]}
    [selector "Equals" "default"] [selector "Equals" "cluster-a"] [].

Definition otherNamespaceDeployment : KubeObject.t :=
  makeDeployment (Some "other") {[ "app" := "shop" ]} "cluster-a".

(** A cluster-scoped object: its [metadata] has no [namespace]. *)
Definition clusterScopedNode : KubeObject.t :=
  KubeObject.mk "Node" "cluster-a"
    (Some (KubeMetadata.mk None (Some {[ "app" := "shop" ]}))).

Definition emptyProject : ProjectDefinition.t := makeProject ∅ [] [] [].

Definition clusterOnlyProject : ProjectDefinition.t :=
  makeProject ∅ [] [selector "Equals" "cluster-a"] [].

Definition kindOnlyProject : ProjectDefinition.t :=
  makeProject ∅ [] [] [deploymentsApi].

Definition notKubeSystemProject : ProjectDefinition.t :=
  makeProject ∅ [selector "NotEquals" "kube-system"] [] [].

Definition notDefaultProject : ProjectDefinition.t :=
  makeProject ∅ [selector "NotEquals" "default"] [] [].

Definition notClusterAProject : ProjectDefinition.t :=
  makeProject ∅ [selector "Equals" "default"]
    [selector "NotEquals" "cluster-a"] [].

Definition notShopProject : ProjectDefinition.t :=
  makeProject {[ "app" := selector "NotEquals" "shop" ]} [] [] [].

(** A resource whose [metadata] has no [labels]. *)
Definition unlabelledPod : KubeObject.t :=
  KubeObject.mk "Pod" "cluster-a"
    (Some (KubeMetadata.mk (Some "default") None)).

(** A label selector as the form's operator menu can produce it. *)
Definition componentExistsProject : ProjectDefinition.t :=
  makeProject {[ "component" := selector "Exists" "" ]}
    [selector "Equals" "default"] [] [].

(** ** The statements of the specification that the code departs from *)

(** Whenever some group is non-empty and all non-empty groups hold, with
    selectors read by operator, the resource matches. *)
Definition specMatchesWhenGroupsHold (resource : KubeObject.t)
    (project : ProjectDefinition.t) : Prop :=
  someGroupNonEmpty project → specGroupsHold resource project →
  matchesProject resource project = true.

(** A non-empty cluster group passes iff some selector holds by its
    operator, and the resource is rejected when none does. *)
Definition specClusterGroupDecides (resource : KubeObject.t)
    (project : ProjectDefinition.t) : Prop :=
  ProjectDefinition.clusterSelectors project ≠ [] →
  (matchesCluster resource project = true ↔ specClusterHolds resource project)
  ∧ (¬ specClusterHolds resource project →
     matchesProject resource project = false).

(** The same for a non-empty namespace group. *)
Definition specNamespaceGroupDecides (resource : KubeObject.t)
    (project : ProjectDefinition.t) : Prop :=
  ProjectDefinition.namespaceSelectors project ≠ [] →
  (matchesNamespace resource project = true ↔
     specNamespaceHolds resource project)
  ∧ (¬ specNamespaceHolds resource project →
     matchesProject resource project = false).

From Stdlib Require Import Sorting.Sorted.

(** * The code around the matcher

    The rest of this part embeds the code that surrounds the matcher and the
    health roll-up: how the views read a health object, the projects
    reducers of [projectsSlice.ts], the label rows and the submit of
    [ProjectForm.tsx], the suggestions of [useLabelSuggestions.ts], the
    health column and the grouping of [ProjectResourcesTab.tsx],
    [createProjectFromYaml] and the cluster list of
    [useProjectResources.ts]. Values that come from outside (the clock, the
    random source, the browser's storage and JSON functions, the API client,
    the category table) are parameters. *)

(** ** The health roll-up as the views read it

    [ProjectDetails], [ProjectList] and [ProjectResourcesTab] read the
    buckets of a health object as [health.success], [health.error] and
    [health.warning]; a bucket that [countBy] did not set reads as
    [undefined], which is [None] here. *)

(** How many resources the classifier sends to [status]. *)
Definition statusCount (getStatus : KubeObject.t → string) (status : string)
    (resources : list KubeObject.t) : nat :=
  length (List.filter (fun r => bool_decide (getStatus r = status)) resources).

(** The sum of all the counts that a health object holds. *)
Definition healthTotal (health : gmap string Z) : Z :=
  foldr Z.add 0%Z (map snd (map_to_list health)).

(** [count > 0] on a bucket: [undefined > 0] is [false]. *)
Definition positiveCount (count : option Z) : bool :=
  match count with
  | Some n => (0 <? n)%Z
  | None => false
  end.

(** [healthy + unhealthy + warning === 0] on buckets: a sum with an
    [undefined] operand is [NaN], which is not [0]. *)
Definition sumIsZero (healthy unhealthy warning : option Z) : bool :=
  match healthy, unhealthy, warning with
  | Some h, Some u, Some w => (h + u + w =? 0)%Z
  | _, _, _ => false
  end.

(** The body of [getHealthIcon] on arguments that may be [undefined]. *)
Definition getHealthIconOf (healthy unhealthy warning : option Z) : string :=
  if sumIsZero healthy unhealthy warning then "mdi:help-circle"
  else if positiveCount unhealthy then "mdi:alert-circle"
  else if positiveCount warning then "mdi:alert"
  else "mdi:check-circle".

(** The call [getHealthIcon(health.success, health.error, health.warning)]
    of the three views. *)
Definition healthIcon (health : gmap string Z) : string :=
  getHealthIconOf (health !! "success") (health !! "error")
    (health !! "warning").

(** The [status] handed to [StatusLabel] by [ProjectDetails] and
    [ProjectList]. *)
Definition healthStatus (health : gmap string Z) : string :=
  if positiveCount (health !! "error") then "error"
  else if positiveCount (health !! "warning") then "warning"
  else "success".

(** The text of the status label in [ProjectDetails] (the keys handed to
    the translation function). *)
Definition projectDetailsHealthText (health : gmap string Z) : string :=
  if bool_decide (health !! "success" = Some 0%Z) then "No Workloads"
  else if positiveCount (health !! "error") then "Unhealthy"
  else if positiveCount (health !! "warning") then "Degraded"
  else "Healthy".

(** The text of the status label in [ProjectList], which tests the number
    of resources instead. *)
Definition projectListHealthText (resources : list KubeObject.t)
    (health : gmap string Z) : string :=
  if (length resources =? 0)%nat then "No Resources"
  else if positiveCount (health !! "error") then "Unhealthy"
  else if positiveCount (health !! "warning") then "Degraded"
  else "Healthy".

(** A classifier for the sample resources: deployments are fine, the rest
    is in error. *)
Definition sampleStatus (resource : KubeObject.t) : string :=
  if bool_decide (KubeObject.kind resource = "Deployment") then "success"
  else "error".

(** ** Project drafts and the projects reducers (projectsSlice.ts)

    A project definition that may still lack [id], [createdAt], [updatedAt]
    and [apiResources]: the result of [createDefaultAppProject], the state of
    [ProjectForm] and the payload of [createOrUpdateProjectAction]. *)
Module ProjectDraft.
Record t : Type := mk {
  id : option string;
  name : string;
  description : option string;
  color : option string;
  icon : option string;
  labelSelectors : gmap string StringSelector.t;
  namespaceSelectors : list StringSelector.t;
  clusterSelectors : list StringSelector.t;
  apiResources : option (list ApiResource.t);
  createdAt : option string;
  updatedAt : option string
}.
End ProjectDraft.

(** [{ ...prev, labelSelectors: newSelectors }]. *)
Definition withLabelSelectors (prev : ProjectDraft.t)
    (newSelectors : gmap string StringSelector.t) : ProjectDraft.t :=
  ProjectDraft.mk (ProjectDraft.id prev) (ProjectDraft.name prev)
    (ProjectDraft.description prev) (ProjectDraft.color prev)
    (ProjectDraft.icon prev) newSelectors
    (ProjectDraft.namespaceSelectors prev)
    (ProjectDraft.clusterSelectors prev) (ProjectDraft.apiResources prev)
    (ProjectDraft.createdAt prev) (ProjectDraft.updatedAt prev).

(** [createDefaultAppProject] of projectUtils.ts. *)
Definition createDefaultAppProject (appName : string) : ProjectDraft.t :=
  ProjectDraft.mk None appName
    (Some ("Project for " ++ appName ++ " application")) (Some "#1976d2")
    (Some "mdi:application")
    {[ "app.kubernetes.io/name" := StringSelector.mk "Equals" appName ]}
    [] [] (Some []) None None.

(** The [projects] table of the slice with the item that [localStorage]
    holds under ['headlamp-projects']. The three plugin registries of the
    state hold React components and are touched by no project reducer; they
    are left out. *)
Module ProjectsState.
Record t : Type := mk {
  projects : gmap string ProjectDefinition.t;
  stored : option string
}.
End ProjectsState.

(** [Object.values(projects)]. *)
Definition projectValues (projects : gmap string ProjectDefinition.t)
  : list ProjectDefinition.t :=
  map snd (map_to_list projects).

Section Reducers.
(** What the browser provides: [JSON.stringify] and [JSON.parse] on project
    tables ([None] when [JSON.parse] throws) and whether
    [localStorage.setItem] accepts a text or throws. *)
Variable stringify : gmap string ProjectDefinition.t → string.
Variable parse : string → option (gmap string ProjectDefinition.t).
Variable accepts : string → bool.
(** The table [defaultApiResources] of projectUtils.ts. *)
Variable defaultApiResources : list ApiResource.t.


(** [saveProjectsToStorage]: an exception of [setItem] is caught and the
    item stays as it was. *)
Definition saveProjectsToStorage (stored : option string)
    (projects : gmap string ProjectDefinition.t) : option string :=
  if accepts (stringify projects) then Some (stringify projects) else stored.

Definition saved (state : ProjectsState.t)
    (projects : gmap string ProjectDefinition.t) : ProjectsState.t :=
  ProjectsState.mk projects
    (saveProjectsToStorage (ProjectsState.stored state) projects).

(** [createOrUpdateProjectAction]; [generatedId] and [now] stand for the
    values that [Date.now], [Math.random] and [new Date] yield. *)
Definition createOrUpdateProjectAction (generatedId now : string)
    (state : ProjectsState.t) (payload : ProjectDraft.t) : ProjectsState.t :=
  let project :=
    ProjectDefinition.mk
      (default generatedId (ProjectDraft.id payload))
      (ProjectDraft.name payload) (ProjectDraft.description payload)
      (ProjectDraft.color payload) (ProjectDraft.icon payload)
      (ProjectDraft.labelSelectors payload)
      (ProjectDraft.namespaceSelectors payload)
      (ProjectDraft.clusterSelectors payload)
      (default defaultApiResources (ProjectDraft.apiResources payload))
      (default now (ProjectDraft.createdAt payload))
      now in
  saved state
    (<[ProjectDefinition.id project := project]> (ProjectsState.projects state)).

(** [deleteProject]. *)
Definition deleteProject (state : ProjectsState.t) (projectId : string)
  : ProjectsState.t :=
  saved state (delete projectId (ProjectsState.projects state)).

(** [importProjects]. *)
Definition importProjects (state : ProjectsState.t)
    (payload : list ProjectDefinition.t) : ProjectsState.t :=
  saved state
    (foldl (fun projects project =>
              <[ProjectDefinition.id project := project]> projects)
       (ProjectsState.projects state) payload).

(** [clearProjects]. *)
Definition clearProjects (state : ProjectsState.t) : ProjectsState.t :=
  saved state ∅.

(** The actions on projects. *)
Inductive ProjectAction : Type :=
  | CreateOrUpdate (generatedId now : string) (payload : ProjectDraft.t)
  | Delete (projectId : string)
  | Import (payload : list ProjectDefinition.t)
  | Clear.

Definition reduce (state : ProjectsState.t) (action : ProjectAction)
  : ProjectsState.t :=
  match action with
  | CreateOrUpdate generatedId now payload =>
      createOrUpdateProjectAction generatedId now state payload
  | Delete projectId => deleteProject state projectId
  | Import payload => importProjects state payload
  | Clear => clearProjects state
  end.

(** A payload of [importProjects] that is a table's [Object.values]: each
    project is filed under its own [id]. *)
Definition keyedById (projects : gmap string ProjectDefinition.t) : Prop :=
  ∀ key project,
    projects !! key = Some project → ProjectDefinition.id project = key.

(** [projects.find(p => p.id === projectId)] of [ProjectDetails] and
    [ProjectForm]. *)
Definition findProject (projects : gmap string ProjectDefinition.t)
    (projectId : string) : option ProjectDefinition.t :=
  List.find (fun p => bool_decide (ProjectDefinition.id p = projectId))
    (projectValues projects).

End Reducers.

(** Stand-ins for the browser in the examples: every table is written as
    the text of the empty object and every write is accepted. *)
Definition sampleStringify (projects : gmap string ProjectDefinition.t)
  : string := "{}".

Definition sampleAccepts (text : string) : bool := true.

Definition emptyState : ProjectsState.t := ProjectsState.mk ∅ None.


(** ** ProjectForm.tsx: editing the label selectors *)

(** The property names that a plain object inherits from
    [Object.prototype]. All of them hold a function or an object, so
    [newSelectors[name]] is truthy for each, own property or not. *)
Definition objectPrototypeKeys : list string :=
  [ "constructor"; "hasOwnProperty"; "isPrototypeOf"; "propertyIsEnumerable";
    "toLocaleString"; "toString"; "valueOf"; "__proto__";
    "__defineGetter__"; "__defineSetter__"; "__lookupGetter__";
    "__lookupSetter__" ].

(** [newSelectors[key]] is truthy: an own row (a selector object) or an
    inherited property. *)
Definition truthyProperty (selectors : gmap string StringSelector.t)
    (key : string) : bool :=
  bool_decide (is_Some (selectors !! key))
  || bool_decide (key ∈ objectPrototypeKeys).

(** [addLabelSelector]: the row under the empty key is set to
    [{ value: '', operator: 'Equals' }]. *)
Definition addLabelSelector (prev : ProjectDraft.t) : ProjectDraft.t :=
  withLabelSelectors prev
    (<["" := StringSelector.mk "Equals" ""]> (ProjectDraft.labelSelectors prev)).

(** [removeLabelSelector]. *)
Definition removeLabelSelector (key : string) (prev : ProjectDraft.t)
  : ProjectDraft.t :=
  withLabelSelectors prev (delete key (ProjectDraft.labelSelectors prev)).

(** The [field] argument of [handleLabelSelectorChange]. *)
Inductive SelectorField : Type := KeyField | ValueField | OperatorField.

(** [handleLabelSelectorChange]. The form calls it with the key of a row
    that it shows. For a [key] that has no row the source stores a row
    without a selector object ([newSelectors[value] = undefined]) or a
    selector with a single field; such a table is no
    [Record<string, StringSelector>] and the result is [None]. *)
Definition handleLabelSelectorChange (key : string) (field : SelectorField)
    (value : string) (prev : ProjectDraft.t) : option ProjectDraft.t :=
  let newSelectors := ProjectDraft.labelSelectors prev in
  match field with
  | KeyField =>
      if negb (bool_decide (key = value))
         && negb (truthyProperty newSelectors value)
      then
        match newSelectors !! key with
        | Some selector =>
            Some (withLabelSelectors prev
                    (delete key (<[value := selector]> newSelectors)))
        | None => None
        end
      else Some (withLabelSelectors prev newSelectors)
  | ValueField =>
      match newSelectors !! key with
      | Some selector =>
          Some (withLabelSelectors prev
                  (<[key := StringSelector.mk
                              (StringSelector.operator selector) value]>
                     newSelectors))
      | None => None
      end
  | OperatorField =>
      match newSelectors !! key with
      | Some selector =>
          Some (withLabelSelectors prev
                  (<[key := StringSelector.mk value
                              (StringSelector.value selector)]>
                     newSelectors))
      | None => None
      end
  end.


(** The draft as [ProjectResourcesPreview] receives it ([project as any]).
    The matcher reads the four selector groups only; the rest is filled
    with empty strings. *)
Definition previewProject (project : ProjectDraft.t) : ProjectDefinition.t :=
  ProjectDefinition.mk (default "" (ProjectDraft.id project))
    (ProjectDraft.name project) (ProjectDraft.description project)
    (ProjectDraft.color project) (ProjectDraft.icon project)
    (ProjectDraft.labelSelectors project)
    (ProjectDraft.namespaceSelectors project)
    (ProjectDraft.clusterSelectors project)
    (default [] (ProjectDraft.apiResources project))
    (default "" (ProjectDraft.createdAt project))
    (default "" (ProjectDraft.updatedAt project)).

(** ** ProjectForm.tsx: submitting *)

(** What [handleSubmit] does: it shows errors, or it dispatches the project
    and navigates to the project with the given id. *)
Inductive SubmitResult : Type :=
  | Rejected (errors : gmap string string)
  | Dispatched (state : ProjectsState.t) (projectId : string).

Section Submit.
(** [String.prototype.trim] and the translation function [t]. *)
Variable trim : string → string.
Variable t : string → string.
Variable stringify : gmap string ProjectDefinition.t → string.
Variable accepts : string → bool.
Variable defaultApiResources : list ApiResource.t.

(** The validation at the head of [handleSubmit]. *)
Definition validate (project : ProjectDraft.t) : gmap string string :=
  let newErrors : gmap string string := ∅ in
  let newErrors :=
    if bool_decide (trim (ProjectDraft.name project) = "")
    then <["name" := t "Project name is required"]> newErrors
    else newErrors in
  let newErrors :=
    if (length (map_to_list (ProjectDraft.labelSelectors project)) =? 0)%nat
       && (length (ProjectDraft.namespaceSelectors project) =? 0)%nat
    then <["labelSelectors" :=
             t "At least one label selector or namespace selector is required"]>
           newErrors
    else newErrors in
  newErrors.

(** [existingProject]: the project of the route's [projectId], if any. *)
Definition existingProject (state : ProjectsState.t)
    (projectId : option string) : option ProjectDefinition.t :=
  match projectId with
  | Some projectId =>
      if bool_decide (projectId = "") then None
      else findProject (ProjectsState.projects state) projectId
  | None => None
  end.

(** [handleSubmit]; [randomId], [createdNow] and [updatedNow] stand for the
    form's [Math.random] and [new Date] values, [generatedId] and [now] for
    those of the reducer. *)
Definition handleSubmit (projectId : option string)
    (randomId createdNow updatedNow generatedId now : string)
    (project : ProjectDraft.t) (state : ProjectsState.t) : SubmitResult :=
  let newErrors := validate project in
  if (0 <? length (map_to_list newErrors))%nat then Rejected newErrors
  else
    let id :=
      default randomId
        (ProjectDefinition.id <$> existingProject state projectId) in
    let projectData :=
      ProjectDraft.mk (Some id) (ProjectDraft.name project)
        (ProjectDraft.description project) (ProjectDraft.color project)
        (ProjectDraft.icon project) (ProjectDraft.labelSelectors project)
        (ProjectDraft.namespaceSelectors project)
        (ProjectDraft.clusterSelectors project)
        (ProjectDraft.apiResources project)
        (Some createdNow) (Some updatedNow) in
    Dispatched
      (createOrUpdateProjectAction stringify accepts defaultApiResources
         generatedId now state projectData)
      id.

End Submit.

(** Stand-ins for [trim] and [t] in the examples; the sample names hold no
    white space. *)
Definition sampleTrim (text : string) : string := text.

Definition sampleTranslate (key : string) : string := key.

Definition shopDraft : ProjectDraft.t :=
  ProjectDraft.mk None "shop" None (Some "#1976d2") (Some "mdi:folder-multiple")
    {[ "app" := StringSelector.mk "Equals" "shop" ]} [] [] (Some [])
    None None.

(** ** useLabelSuggestions.ts *)

(** The outcome of code that reads a property of a value that may be
    [undefined] without [?.]: a value, or a [TypeError]. *)
Inductive Completion (A : Type) : Type :=
  | Normal (value : A)
  | TypeError.
Arguments Normal {A} value.
Arguments TypeError {A}.

Definition APP_LABEL_KEYS : list string :=
  [ "app.kubernetes.io/name"; "app.kubernetes.io/instance";
    "app.kubernetes.io/component"; "app.kubernetes.io/part-of";
    "app"; "k8s-app"; "helm.sh/chart"; "name" ].

(** The result object of [getAppName]. *)
Module AppInfo.
Record t : Type := mk {
  appName : string;
  labelKey : string;
  labelValue : string
}.
End AppInfo.

(** [if (labels[key])]: the label is set and not the empty string. None of
    [APP_LABEL_KEYS] is a property name of [Object.prototype]. *)
Definition truthyLabel (labelValue : option string) : bool :=
  match labelValue with
  | Some text => negb (bool_decide (text = ""))
  | None => false
  end.

(** The [for] loop of [getAppName] over the keys that are left. *)
Fixpoint firstAppLabel (labels : gmap string string) (keys : list string)
  : option AppInfo.t :=
  match keys with
  | [] => None
  | key :: keys =>
      match labels !! key with
      | Some text =>
          if negb (bool_decide (text = "")) then Some (AppInfo.mk text key text)
          else firstAppLabel labels keys
      | None => firstAppLabel labels keys
      end
  end.

(** [getAppName]. It reads [resource.metadata.labels] without [?.], so a
    resource without [metadata] raises. *)
Definition getAppName (resource : KubeObject.t)
  : Completion (option AppInfo.t) :=
  match KubeObject.metadata resource with
  | None => TypeError
  | Some metadata =>
      Normal (firstAppLabel (default ∅ (KubeMetadata.labels metadata))
                APP_LABEL_KEYS)
  end.

(** A value of [appMap]. *)
Module AppEntry.
Record t : Type := mk {
  labelKey : string;
  labelValue : string;
  resources : list KubeObject.t
}.
End AppEntry.

(** An element of the hook's [suggestions]. *)
Module Suggestion.
Record t : Type := mk {
  label : string;
  value : string
}.
End Suggestion.

(** [appMap.has(appName)]; the [Map] is the list of its entries in
    insertion order. *)
Definition appMapHas (appMap : list (string * AppEntry.t)) (appName : string)
  : bool :=
  existsb (fun entry => bool_decide (fst entry = appName)) appMap.

(** [appMap.get(appName)?.resources.push(resource)]. *)
Definition appMapPush (appMap : list (string * AppEntry.t))
    (appName : string) (resource : KubeObject.t)
  : list (string * AppEntry.t) :=
  map (fun entry =>
         if bool_decide (fst entry = appName)
         then (fst entry,
               AppEntry.mk (AppEntry.labelKey (snd entry))
                 (AppEntry.labelValue (snd entry))
                 (AppEntry.resources (snd entry) ++ [resource])%list)
         else entry)
    appMap.

(** The body of the loop over [allResources] for a resource with an app
    label. *)
Definition appMapRecord (appMap : list (string * AppEntry.t))
    (appInfo : AppInfo.t) (resource : KubeObject.t)
  : list (string * AppEntry.t) :=
  let appMap :=
    if negb (appMapHas appMap (AppInfo.appName appInfo))
    then (appMap ++ [(AppInfo.appName appInfo,
                      AppEntry.mk (AppInfo.labelKey appInfo)
                        (AppInfo.labelValue appInfo) [])])%list
    else appMap in
  appMapPush appMap (AppInfo.appName appInfo) resource.

(** The loop over [allResources]. *)
Fixpoint collectApps (allResources : list KubeObject.t)
    (appMap : list (string * AppEntry.t))
  : Completion (list (string * AppEntry.t)) :=
  match allResources with
  | [] => Normal appMap
  | resource :: allResources =>
      match getAppName resource with
      | TypeError => TypeError
      | Normal None => collectApps allResources appMap
      | Normal (Some appInfo) =>
          collectApps allResources (appMapRecord appMap appInfo resource)
      end
  end.

(** lodash's [sortBy(suggestions, it => it.value)]: a stable ascending sort.
    Strings are compared character by character by their codes, as
    JavaScript's [<] does; label values are ASCII. *)
Fixpoint insertByValue (suggestion : Suggestion.t)
    (sorted : list Suggestion.t) : list Suggestion.t :=
  match sorted with
  | [] => [suggestion]
  | next :: sorted =>
      if String.ltb (Suggestion.value suggestion) (Suggestion.value next)
      then suggestion :: next :: sorted
      else next :: insertByValue suggestion sorted
  end.

Definition sortByValue (suggestions : list Suggestion.t)
  : list Suggestion.t :=
  foldl (fun sorted suggestion => insertByValue suggestion sorted) []
    suggestions.

(** The [useMemo] of [useLabelSuggestions] that computes
    [suggestedSelectors] from the four lists, each [null] while it loads:
    first [allResources], then the map and the sorted suggestions. *)
Definition allResources
    (deployments replicaSets statefulSets daemonSets
       : option (list KubeObject.t)) : list KubeObject.t :=
  (default [] deployments ++ default [] replicaSets
   ++ default [] statefulSets ++ default [] daemonSets)%list.

Definition suggestedSelectors
    (deployments replicaSets statefulSets daemonSets
       : option (list KubeObject.t))
  : Completion (list Suggestion.t) :=
  match collectApps
          (allResources deployments replicaSets statefulSets daemonSets) []
  with
  | TypeError => TypeError
  | Normal appMap =>
      Normal
        (sortByValue
           (map (fun entry =>
                   Suggestion.mk (AppEntry.labelKey (snd entry))
                     (AppEntry.labelValue (snd entry)))
              appMap))
  end.

Definition cartStatefulSet : KubeObject.t :=
  KubeObject.mk "StatefulSet" "cluster-a"
    (Some (KubeMetadata.mk (Some "default")
             (Some {[ "app.kubernetes.io/name" := "cart"; "app" := "shop" ]}))).

(** What the suggestions read of [appMap]: name, label key and label value
    of each entry, in insertion order. *)
Definition appSummary (appMap : list (string * AppEntry.t))
  : list (string * string * string) :=
  map (fun entry =>
         (fst entry, AppEntry.labelKey (snd entry),
          AppEntry.labelValue (snd entry)))
    appMap.

(** The state of [appMap] after the resources [seen]: one entry for each
    application name found so far, each taken from a resource. *)
Definition appMapOf (seen : list KubeObject.t)
    (appMap : list (string * AppEntry.t)) : Prop :=
  NoDup (map (fun entry => fst (fst entry)) (appSummary appMap))
  ∧ (∀ name key value,
       (name, key, value) ∈ appSummary appMap →
       value = name
       ∧ ∃ r, r ∈ seen ∧ getAppName r = Normal (Some (AppInfo.mk name key value)))
  ∧ (∀ r info,
       r ∈ seen → getAppName r = Normal (Some info) →
       ∃ key value, (AppInfo.appName info, key, value) ∈ appSummary appMap).

(** Ascending by [value]. *)
Definition ascendingByValue (suggestions : list Suggestion.t) : Prop :=
  Sorted
    (fun a b => String.leb (Suggestion.value a) (Suggestion.value b) = true)
    suggestions.

(** ** ProjectResourcesTab.tsx

    The fields of a workload that the health column reads, each of them
    optional: [spec.replicas], and of [status] the replica counts, the pod
    phase and the pod conditions. *)
Module Condition.
Record t : Type := mk {
  type : string;
  status : string
}.
End Condition.

Module WorkloadSpec.
Record t : Type := mk {
  replicas : option Z
}.
End WorkloadSpec.

Module WorkloadStatus.
Record t : Type := mk {
  readyReplicas : option Z;
  numberReady : option Z;
  desiredNumberScheduled : option Z;
  phase : option string;
  conditions : option (list Condition.t)
}.
End WorkloadStatus.

Module Workload.
Record t : Type := mk {
  kind : string;
  spec : option WorkloadSpec.t;
  status : option WorkloadStatus.t
}.
End Workload.

(** [count === 0]. *)
Definition isZero (count : option Z) : bool :=
  bool_decide (count = Some 0%Z).

(** [(ready || 0) < (desired || 0)]. *)
Definition fewerThan (ready desired : option Z) : bool :=
  (default 0 ready <? default 0 desired)%Z.

(** [conditions.find(c => c.type === 'Ready')?.status === 'True'] with
    [conditions = pod.status?.conditions || []]. *)
Definition podReady (resource : Workload.t) : bool :=
  let conditions :=
    default [] (Workload.status resource ≫= WorkloadStatus.conditions) in
  bool_decide
    (Condition.status
       <$> List.find (fun c => bool_decide (Condition.type c = "Ready"))
             conditions
     = Some "True").

(** The [accessorFn] of the health column: it returns from inside the
    branch of the resource's kind, or falls through to ['Healthy']. *)
Definition healthAccessor (resource : Workload.t) : string :=
  let kind := Workload.kind resource in
  let fallThrough := "Healthy" in
  if bool_decide (kind = "Deployment") then
    let spec := Workload.spec resource in
    let status := Workload.status resource in
    if isZero (status ≫= WorkloadStatus.readyReplicas) then "Unhealthy"
    else if fewerThan (status ≫= WorkloadStatus.readyReplicas)
              (spec ≫= WorkloadSpec.replicas) then "Degraded"
    else fallThrough
  else if bool_decide (kind = "StatefulSet") then
    let spec := Workload.spec resource in
    let status := Workload.status resource in
    if isZero (status ≫= WorkloadStatus.readyReplicas) then "Unhealthy"
    else if fewerThan (status ≫= WorkloadStatus.readyReplicas)
              (spec ≫= WorkloadSpec.replicas) then "Degraded"
    else fallThrough
  else if bool_decide (kind = "DaemonSet") then
    let status := Workload.status resource in
    if isZero (status ≫= WorkloadStatus.numberReady) then "Unhealthy"
    else if fewerThan (status ≫= WorkloadStatus.numberReady)
              (status ≫= WorkloadStatus.desiredNumberScheduled)
    then "Degraded"
    else fallThrough
  else if bool_decide (kind = "Pod") then
    let phase := Workload.status resource ≫= WorkloadStatus.phase in
    let ready := podReady resource in
    if bool_decide (phase = Some "Failed")
       || bool_decide (phase = Some "CrashLoopBackOff") then "Failed"
    else if bool_decide (phase = Some "Pending") || negb ready then "Pending"
    else fallThrough
  else fallThrough.

(** The [healthText] variable of the column's [Cell]: it starts as
    ['Healthy'] and is assigned in the branch of the resource's kind. *)
Definition healthText (resource : Workload.t) : string :=
  let kind := Workload.kind resource in
  let healthText := "Healthy" in
  let healthText :=
    if bool_decide (kind = "Deployment") then
      let spec := Workload.spec resource in
      let status := Workload.status resource in
      if isZero (status ≫= WorkloadStatus.readyReplicas) then "Unhealthy"
      else if fewerThan (status ≫= WorkloadStatus.readyReplicas)
                (spec ≫= WorkloadSpec.replicas) then "Degraded"
      else healthText
    else if bool_decide (kind = "StatefulSet") then
      let spec := Workload.spec resource in
      let status := Workload.status resource in
      if isZero (status ≫= WorkloadStatus.readyReplicas) then "Unhealthy"
      else if fewerThan (status ≫= WorkloadStatus.readyReplicas)
                (spec ≫= WorkloadSpec.replicas) then "Degraded"
      else healthText
    else if bool_decide (kind = "DaemonSet") then
      let status := Workload.status resource in
      if isZero (status ≫= WorkloadStatus.numberReady) then "Unhealthy"
      else if fewerThan (status ≫= WorkloadStatus.numberReady)
                (status ≫= WorkloadStatus.desiredNumberScheduled)
      then "Degraded"
      else healthText
    else if bool_decide (kind = "Pod") then
      let phase := Workload.status resource ≫= WorkloadStatus.phase in
      let ready := podReady resource in
      if bool_decide (phase = Some "Failed")
         || bool_decide (phase = Some "CrashLoopBackOff") then "Failed"
      else if bool_decide (phase = Some "Pending") || negb ready
      then "Pending"
      else healthText
    else healthText in
  healthText.

(** A deployment as the fixtures of the tests build it. *)
Definition deploymentWith (replicas readyReplicas : option Z) : Workload.t :=
  Workload.mk "Deployment" (Some (WorkloadSpec.mk replicas))
    (Some (WorkloadStatus.mk readyReplicas None None None None)).

Section Categories.
(** [ResourceCategory] and [getKubeObjectCategory] of the resource map; a
    [Map] compares its keys, the category objects, by identity. *)
Context {ResourceCategory : Type} `{EqDecision ResourceCategory}.
Variable getKubeObjectCategory : KubeObject.t → ResourceCategory.
Variable getStatus : KubeObject.t → string.

(** The body of [projectResources.forEach]: the resource is pushed to the
    group of its category, which is created at the end of the [Map] when it
    is not there. *)
Definition placeItem (groups : list (ResourceCategory * list KubeObject.t))
    (r : KubeObject.t) : list (ResourceCategory * list KubeObject.t) :=
  let category := getKubeObjectCategory r in
  let groups :=
    if negb (existsb (fun group => bool_decide (fst group = category)) groups)
    then (groups ++ [(category, [])])%list
    else groups in
  map (fun group =>
         if bool_decide (fst group = category)
         then (fst group, (snd group ++ [r])%list)
         else group)
    groups.

(** [resourceCategories]: the entries of the [Map], each with its items
    and the health of its items. *)
Definition resourceCategories (projectResources : list KubeObject.t)
  : list (ResourceCategory * (list KubeObject.t * gmap string Z)) :=
  map (fun group =>
         (fst group, (snd group, getResourcesHealth getStatus (snd group))))
    (foldl placeItem [] projectResources).

(** The groups after the resources [placed]: one group for each category
    met, holding the resources of that category in their order. *)
Definition groupedBy (placed : list KubeObject.t)
    (groups : list (ResourceCategory * list KubeObject.t)) : Prop :=
  NoDup (map fst groups)
  ∧ (∀ category items,
       (category, items) ∈ groups →
       items = List.filter
                 (fun r => bool_decide (getKubeObjectCategory r = category))
                 placed
       ∧ items ≠ [])
  ∧ (∀ r, r ∈ placed → getKubeObjectCategory r ∈ map fst groups).

End Categories.

(** ** ProjectCreateFromYaml.tsx *)

(** An uploaded item ([KubeObjectInterface]): its kind and its metadata. *)
Module Manifest.
Record t : Type := mk {
  kind : string;
  metadata : option KubeMetadata.t
}.
End Manifest.





(** What [createProjectFromYaml] leaves behind: the items that [apply] has
    created, in order, and the project, if the function returns one. *)
Module YamlResult.
Record t : Type := mk {
  applied : list Manifest.t;
  project : option ProjectDefinition.t
}.
End YamlResult.

Section CreateFromYaml.
(** [apply(item, cluster)] resolves ([true]) or rejects; [applyNamespace]
    is the same for the namespace object of the given name. *)
Variable apply : Manifest.t → string → bool.
Variable applyNamespace : string → string → bool.



End CreateFromYaml.




(** ** useProjectResources.ts *)

(** [[...new Set(values)]]: the values without repetition, each at the place
    of its first occurrence. *)
Definition setToArray (values : list string) : list string :=
  foldl (fun seen value =>
           if bool_decide (value ∈ seen) then seen
           else (seen ++ [value])%list)
    [] values.

(** [allProjectClusters]: the cluster names of all the projects' cluster
    selectors; [filter(Boolean)] drops the empty name. *)
Definition allProjectClusters (projectsArray : list ProjectDefinition.t)
  : list string :=
  setToArray
    (flat_map
       (fun p =>
          List.filter (fun value => negb (bool_decide (value = "")))
            (map StringSelector.value (ProjectDefinition.clusterSelectors p)))
       projectsArray).

(** ** Reflection of the boolean checks *)

Section Reflection.
Context {A : Type}.

Lemma early_exit_skipped (l : list A) (ok : bool) :
  (0 <? length l)%nat && negb ok = false ↔ (l ≠ [] → ok = true).
Proof.
  destruct l as [|x l], ok; simpl; split; try congruence; try tauto.
  intros H. symmetry. apply H. discriminate.
Qed.

Lemma existsb_elem_of (f : A → bool) (l : list A) :
  existsb f l = true ↔ ∃ x, x ∈ l ∧ f x = true.
Proof.
  rewrite existsb_exists. split; intros (x & Hx & Hf); exists x; split;
    try assumption; by apply list_elem_of_In.
Qed.
End Reflection.

Lemma entries_empty_iff (m : gmap string StringSelector.t) :
  map_to_list m = [] ↔ m = ∅.
Proof. apply map_to_list_empty_iff. Qed.

Lemma matchesApiResource_true resource project :
  matchesApiResource resource project = true ↔ kindAllowed resource project.
Proof.
  unfold matchesApiResource, kindAllowed. rewrite existsb_elem_of.
  by setoid_rewrite bool_decide_eq_true.
Qed.

Lemma matchesCluster_true resource project :
  matchesCluster resource project = true ↔ clusterListed resource project.
Proof.
  unfold matchesCluster, clusterListed. rewrite existsb_elem_of.
  by setoid_rewrite bool_decide_eq_true.
Qed.

Lemma matchesNamespace_true resource project :
  matchesNamespace resource project = true ↔ namespaceListed resource project.
Proof.
  unfold matchesNamespace, namespaceListed. cbv zeta.
  rewrite existsb_elem_of. by setoid_rewrite bool_decide_eq_true.
Qed.

Lemma matchesLabels_true resource project :
  matchesLabels resource project = true ↔ labelsHold resource project.
Proof.
  unfold matchesLabels, labelsHold. rewrite forallb_forall. split.
  - intros H key sel Hsel.
    apply (H (key, sel)), list_elem_of_In, elem_of_map_to_list, Hsel.
  - intros H [key sel] Hin. simpl.
    apply H, elem_of_map_to_list, list_elem_of_In, Hin.
Qed.

(** [matchesProject] answers [true] exactly when none of its five exits is
    taken. *)
Lemma matchesProject_true_iff resource project :
  matchesProject resource project = true ↔
    groupsHold resource project
    ∧ (ProjectDefinition.labelSelectors project ≠ ∅
       ∨ ProjectDefinition.namespaceSelectors project ≠ []).
Proof.
  unfold matchesProject, groupsHold.
  rewrite <- matchesApiResource_true, <- matchesCluster_true,
    <- matchesNamespace_true, <- matchesLabels_true.
  rewrite <- (entries_empty_iff (ProjectDefinition.labelSelectors project)).
  rewrite <- !early_exit_skipped.
  destruct (_ && negb (matchesApiResource _ _)); [intuition congruence|].
  destruct (_ && negb (matchesCluster _ _)); [intuition congruence|].
  destruct (_ && negb (matchesNamespace _ _)); [intuition congruence|].
  destruct (_ && negb (matchesLabels _ _)); [intuition congruence|].
  destruct (map_to_list _) as [|e es], (ProjectDefinition.namespaceSelectors _)
    as [|n ns]; simpl; intuition congruence.
Qed.

Lemma matchesProject_false_iff resource project :
  matchesProject resource project = false ↔
    ¬ (groupsHold resource project
       ∧ (ProjectDefinition.labelSelectors project ≠ ∅
          ∨ ProjectDefinition.namespaceSelectors project ≠ [])).
Proof.
  rewrite <- matchesProject_true_iff.
  destruct (matchesProject resource project); split; congruence.
Qed.

Lemma groupsHoldb_true resource project :
  groupsHoldb resource project = true ↔ groupsHold resource project.
Proof.
  unfold groupsHoldb, groupsHold.
  rewrite <- matchesApiResource_true, <- matchesCluster_true,
    <- matchesNamespace_true, <- matchesLabels_true.
  rewrite <- (entries_empty_iff (ProjectDefinition.labelSelectors project)).
  rewrite <- !early_exit_skipped.
  rewrite !andb_true_iff, !negb_true_iff. tauto.
Qed.

Lemma specSelectorHolds_Equals selector actual :
  StringSelector.operator selector = "Equals" →
  specSelectorHolds selector actual = true ↔
    actual = Some (StringSelector.value selector).
Proof.
  intros Hop. unfold specSelectorHolds. rewrite Hop. simpl.
  apply bool_decide_eq_true.
Qed.

Lemma filter_matches_sublist {A : Type} (f : A → bool) (l : list A) :
  List.filter f l `sublist_of` l.
Proof.
  induction l as [|x l IH]; simpl.
  - constructor.
  - destruct (f x); by constructor.
Qed.

Lemma filter_matches_idempotent {A : Type} (f : A → bool) (l : list A) :
  List.filter f (List.filter f l) = List.filter f l.
Proof.
  induction l as [|x l IH]; simpl; [reflexivity|].
  destruct (f x) eqn:Hx; simpl; [rewrite Hx; f_equal|]; exact IH.
Qed.

Lemma forallb_pointwise {A : Type} (f g : A → bool) (l : list A) :
  (∀ x, f x = g x) → forallb f l = forallb g l.
Proof.
  intros Hfg. induction l as [|x l IH]; simpl; [reflexivity|].
  by rewrite Hfg, IH.
Qed.

Lemma matchesLabelSelector_missing resource key selector :
  labelsMissing resource →
  matchesLabelSelector resource key selector =
  matchesLabelSelector (withEmptyLabels resource) key selector.
Proof.
  unfold labelsMissing, matchesLabelSelector, resourceLabels. simpl.
  intros ->. reflexivity.
Qed.

Lemma specSelectorHolds_decide_cluster resource project :
  existsb
    (fun s => specSelectorHolds s (Some (KubeObject.cluster resource)))
    (ProjectDefinition.clusterSelectors project) = true ↔
  specClusterHolds resource project.
Proof. apply existsb_elem_of. Qed.

Lemma specSelectorHolds_decide_namespace resource project :
  existsb
    (fun s => specSelectorHolds s (resourceNamespace resource))
    (ProjectDefinition.namespaceSelectors project) = true ↔
  specNamespaceHolds resource project.
Proof. apply existsb_elem_of. Qed.

(** * The selector matcher *)

(** C1, as the specification states it, fails: a project that has cluster
    selectors only rejects a resource of the listed cluster, a project that
    has an allow-list of kinds only rejects a resource of a listed kind, and
    a namespace selector [NotEquals "kube-system"] rejects a resource of
    namespace ["default"], although in each case some group is non-empty and
    every non-empty group holds when selectors are read by operator. *)
Lemma matchesProject_spec_groups_counterexample :
  ¬ specMatchesWhenGroupsHold shopDeployment clusterOnlyProject
  ∧ matchesProject shopDeployment clusterOnlyProject = false
  ∧ ¬ specMatchesWhenGroupsHold shopDeployment notKubeSystemProject
  ∧ matchesProject shopDeployment notKubeSystemProject = false
  ∧ ¬ specMatchesWhenGroupsHold shopDeployment kindOnlyProject
  ∧ matchesProject shopDeployment kindOnlyProject = false.
Proof.
  assert (H1 : matchesProject shopDeployment clusterOnlyProject = false)
    by (vm_compute; reflexivity).
  assert (H2 : matchesProject shopDeployment notKubeSystemProject = false)
    by (vm_compute; reflexivity).
  assert (H3 : matchesProject shopDeployment kindOnlyProject = false)
    by (vm_compute; reflexivity).
  split; [|split; [exact H1|split; [|split; [exact H2|split; [|exact H3]]]]].
  - intros Hspec. unfold specMatchesWhenGroupsHold in Hspec.
    rewrite H1 in Hspec. enough (false = true) by discriminate.
    apply Hspec.
    + right; left. discriminate.
    + repeat split; try (intros Hne; exfalso; apply Hne; reflexivity).
      intros _. apply specSelectorHolds_decide_cluster. vm_compute. reflexivity.
  - intros Hspec. unfold specMatchesWhenGroupsHold in Hspec.
    rewrite H2 in Hspec. enough (false = true) by discriminate.
    apply Hspec.
    + right; right; left. discriminate.
    + repeat split; try (intros Hne; exfalso; apply Hne; reflexivity).
      intros _. apply specSelectorHolds_decide_namespace. vm_compute.
      reflexivity.
  - intros Hspec. unfold specMatchesWhenGroupsHold in Hspec.
    rewrite H3 in Hspec. enough (false = true) by discriminate.
    apply Hspec.
    + left. discriminate.
    + repeat split; try (intros Hne; exfalso; apply Hne; reflexivity).
      intros _. apply matchesApiResource_true. vm_compute. reflexivity.
Qed.

(** C1, amended: when every non-empty group holds against the resource (kind
    in the allow-list, some cluster selector's value equal to the resource's
    cluster, some namespace selector's value equal to its namespace, every
    label selector true), [matchesProject] answers [true] exactly when
    [labelSelectors] or [namespaceSelectors] is non-empty; it answers [false]
    for want of selectors exactly when these two groups are both empty,
    whatever [clusterSelectors] and [apiResources] hold. *)
Theorem matchesProject_groups_hold resource project :
  groupsHold resource project →
  (matchesProject resource project = true ↔
     ProjectDefinition.labelSelectors project ≠ ∅
     ∨ ProjectDefinition.namespaceSelectors project ≠ [])
  ∧ (matchesProject resource project = false ↔
     ProjectDefinition.labelSelectors project = ∅
     ∧ ProjectDefinition.namespaceSelectors project = []).
Proof.
  intros Hgroups. split.
  - rewrite matchesProject_true_iff. tauto.
  - rewrite matchesProject_false_iff.
    destruct (decide (ProjectDefinition.labelSelectors project = ∅)) as [He|He],
      (ProjectDefinition.namespaceSelectors project) as [|sel sels];
      intuition congruence.
Qed.

Lemma matchesProject_groups_hold_witness :
  groupsHold shopDeployment shopProject
  ∧ matchesProject shopDeployment shopProject = true
  ∧ groupsHold shopDeployment clusterOnlyProject
  ∧ matchesProject shopDeployment clusterOnlyProject = false.
Proof.
  assert (H1 : groupsHold shopDeployment shopProject)
    by (apply groupsHoldb_true; vm_compute; reflexivity).
  assert (H2 : groupsHold shopDeployment clusterOnlyProject)
    by (apply groupsHoldb_true; vm_compute; reflexivity).
  split; [exact H1|split; [|split; [exact H2|]]].
  - apply (matchesProject_groups_hold _ _ H1). right. simpl. discriminate.
  - apply (matchesProject_groups_hold _ _ H2). split; reflexivity.
Defined.

(** C2, as the specification states it, fails: [matchesCluster] and
    [matchesNamespace] compare the selector's value and never read its
    operator. With the cluster selector [NotEquals "cluster-a"] a resource of
    ["cluster-a"] passes the cluster group and matches; with the namespace
    selector [NotEquals "default"] a resource of namespace ["default"]
    passes the namespace group and matches. In both cases no selector of
    the group holds by its operator. *)
Lemma matchesProject_spec_operator_counterexample :
  ¬ specClusterGroupDecides shopDeployment notClusterAProject
  ∧ ¬ specClusterHolds shopDeployment notClusterAProject
  ∧ matchesProject shopDeployment notClusterAProject = true
  ∧ ¬ specNamespaceGroupDecides shopDeployment notDefaultProject
  ∧ ¬ specNamespaceHolds shopDeployment notDefaultProject
  ∧ matchesProject shopDeployment notDefaultProject = true.
Proof.
  assert (Hc : ¬ specClusterHolds shopDeployment notClusterAProject).
  { rewrite <- specSelectorHolds_decide_cluster. vm_compute. discriminate. }
  assert (Hn : ¬ specNamespaceHolds shopDeployment notDefaultProject).
  { rewrite <- specSelectorHolds_decide_namespace. vm_compute. discriminate. }
  assert (H1 : matchesProject shopDeployment notClusterAProject = true)
    by (vm_compute; reflexivity).
  assert (H2 : matchesProject shopDeployment notDefaultProject = true)
    by (vm_compute; reflexivity).
  repeat split; try assumption.
  - intros Hspec. destruct Hspec as [_ Hreject]; [discriminate|].
    rewrite (Hreject Hc) in H1. discriminate.
  - intros Hspec. destruct Hspec as [_ Hreject]; [discriminate|].
    rewrite (Hreject Hn) in H2. discriminate.
Qed.

(** C2, amended: a non-empty [clusterSelectors] (resp. [namespaceSelectors])
    group passes iff at least one selector's value equals the resource's
    cluster (resp. namespace), whatever the selector's operator; if no
    selector's value equals it, [matchesProject] answers [false]. For a
    group made of [Equals] selectors only this is the evaluation by
    operator. *)
Theorem matchesProject_cluster_namespace_groups resource project :
  (ProjectDefinition.clusterSelectors project ≠ [] →
     (matchesCluster resource project = true ↔ clusterListed resource project)
     ∧ (¬ clusterListed resource project →
        matchesProject resource project = false))
  ∧ (ProjectDefinition.namespaceSelectors project ≠ [] →
     (matchesNamespace resource project = true ↔
        namespaceListed resource project)
     ∧ (¬ namespaceListed resource project →
        matchesProject resource project = false))
  ∧ ((∀ s, s ∈ ProjectDefinition.clusterSelectors project →
        StringSelector.operator s = "Equals") →
     clusterListed resource project ↔ specClusterHolds resource project)
  ∧ ((∀ s, s ∈ ProjectDefinition.namespaceSelectors project →
        StringSelector.operator s = "Equals") →
     namespaceListed resource project ↔ specNamespaceHolds resource project).
Proof.
  split; [|split; [|split]].
  - intros Hne. split; [apply matchesCluster_true|].
    intros Hno. apply matchesProject_false_iff.
    intros [(_ & Hcl & _) _]. apply Hno, Hcl, Hne.
  - intros Hne. split; [apply matchesNamespace_true|].
    intros Hno. apply matchesProject_false_iff.
    intros [(_ & _ & Hns & _) _]. apply Hno, Hns, Hne.
  - intros Hops. unfold clusterListed, specClusterHolds.
    split; intros (s & Hin & Hs); exists s; (split; [exact Hin|]).
    + apply specSelectorHolds_Equals; [by apply Hops|]. by rewrite Hs.
    + apply specSelectorHolds_Equals in Hs; [|by apply Hops]. congruence.
  - intros Hops. unfold namespaceListed, specNamespaceHolds.
    split; intros (s & Hin & Hs); exists s; (split; [exact Hin|]).
    + apply specSelectorHolds_Equals; [by apply Hops|]. by rewrite Hs.
    + apply specSelectorHolds_Equals in Hs; [|by apply Hops]. congruence.
Qed.

Lemma matchesProject_cluster_namespace_groups_witness :
  ProjectDefinition.namespaceSelectors shopProject ≠ []
  ∧ ¬ namespaceListed otherNamespaceDeployment shopProject
  ∧ matchesProject otherNamespaceDeployment shopProject = false
  ∧ ProjectDefinition.clusterSelectors shopProject ≠ []
  ∧ matchesCluster shopDeployment shopProject = true
  ∧ specClusterHolds shopDeployment shopProject.
Proof.
  assert (Hns : ProjectDefinition.namespaceSelectors shopProject ≠ [])
    by discriminate.
  assert (Hcs : ProjectDefinition.clusterSelectors shopProject ≠ [])
    by discriminate.
  assert (Hno : ¬ namespaceListed otherNamespaceDeployment shopProject).
  { rewrite <- matchesNamespace_true. vm_compute. discriminate. }
  assert (Hops : ∀ s, s ∈ ProjectDefinition.clusterSelectors shopProject →
                      StringSelector.operator s = "Equals").
  { intros s Hin. apply list_elem_of_In in Hin. simpl in Hin.
    destruct Hin as [<-|[]]. reflexivity. }
  assert (Hyes : matchesCluster shopDeployment shopProject = true)
    by (vm_compute; reflexivity).
  destruct (matchesProject_cluster_namespace_groups otherNamespaceDeployment
              shopProject) as (_ & Hnsgroup & _).
  destruct (matchesProject_cluster_namespace_groups shopDeployment
              shopProject) as (Hclgroup & _ & Hclspec & _).
  split; [exact Hns|]. split; [exact Hno|].
  split; [apply (Hnsgroup Hns), Hno|].
  split; [exact Hcs|]. split; [exact Hyes|].
  apply (Hclspec Hops), (Hclgroup Hcs), Hyes.
Defined.

(** C4: a project whose four selector groups are all empty matches no
    resource. *)
Theorem matchesProject_no_selectors resource project :
  ProjectDefinition.labelSelectors project = ∅ →
  ProjectDefinition.namespaceSelectors project = [] →
  ProjectDefinition.clusterSelectors project = [] →
  ProjectDefinition.apiResources project = [] →
  matchesProject resource project = false.
Proof.
  intros Hlabels Hns _ _. apply matchesProject_false_iff.
  intros [_ [Hne|Hne]]; contradiction.
Qed.

Lemma matchesProject_no_selectors_witness :
  matchesProject shopDeployment emptyProject = false.
Proof.
  apply (matchesProject_no_selectors shopDeployment emptyProject);
    reflexivity.
Defined.

(** C5: with [labelSelectors] non-empty, the label group passes iff every
    (key, selector) entry accepts the resource, and the resource is rejected
    otherwise. For a key absent from the resource's labels an [Equals]
    selector answers [false] and a [NotEquals] selector [true]; for a key
    that is present, [Equals v] compares the label with [v] and
    [NotEquals v] answers the negation of [Equals v]. *)
Theorem matchesProject_label_group resource project :
  ProjectDefinition.labelSelectors project ≠ ∅ →
  (matchesLabels resource project = true ↔ labelsHold resource project)
  ∧ (¬ labelsHold resource project → matchesProject resource project = false)
  ∧ (∀ key v,
       resourceLabels resource !! key = None →
       matchesLabelSelector resource key (selector "Equals" v) = false
       ∧ matchesLabelSelector resource key (selector "NotEquals" v) = true)
  ∧ (∀ key v x,
       resourceLabels resource !! key = Some x →
       (matchesLabelSelector resource key (selector "Equals" v) = true ↔ x = v)
       ∧ matchesLabelSelector resource key (selector "NotEquals" v) =
         negb (matchesLabelSelector resource key (selector "Equals" v))).
Proof.
  intros Hne. split; [apply matchesLabels_true|]. split; [|split].
  - intros Hno. apply matchesProject_false_iff.
    intros [(_ & _ & _ & Hlabels) _]. apply Hno, Hlabels, Hne.
  - intros key v Habsent. unfold matchesLabelSelector. simpl.
    rewrite Habsent. split; reflexivity.
  - intros key v x Hpresent. unfold matchesLabelSelector. simpl.
    rewrite Hpresent. split; [|reflexivity].
    rewrite bool_decide_eq_true. split; congruence.
Qed.

Lemma matchesProject_label_group_witness :
  ProjectDefinition.labelSelectors shopProject ≠ ∅
  ∧ matchesLabels shopDeployment shopProject = true
  ∧ labelsHold shopDeployment shopProject
  ∧ matchesLabelSelector shopDeployment "tier" (selector "Equals" "web") = false
  ∧ matchesLabelSelector shopDeployment "tier" (selector "NotEquals" "web")
    = true
  ∧ matchesLabelSelector shopDeployment "app" (selector "NotEquals" "shop")
    = negb (matchesLabelSelector shopDeployment "app" (selector "Equals" "shop")).
Proof.
  assert (Hne : ProjectDefinition.labelSelectors shopProject ≠ ∅).
  { intros Hempty. apply (f_equal (lookup "app")) in Hempty.
    vm_compute in Hempty. discriminate. }
  assert (Hyes : matchesLabels shopDeployment shopProject = true)
    by (vm_compute; reflexivity).
  destruct (matchesProject_label_group shopDeployment shopProject Hne)
    as (Hgroup & _ & Habsent & Hpresent).
  assert (Htier : resourceLabels shopDeployment !! "tier" = None)
    by (vm_compute; reflexivity).
  assert (Happ : resourceLabels shopDeployment !! "app" = Some "shop")
    by (vm_compute; reflexivity).
  split; [exact Hne|]. split; [exact Hyes|].
  split; [apply Hgroup, Hyes|].
  split; [apply (Habsent "tier" "web" Htier)|].
  split; [apply (Habsent "tier" "web" Htier)|].
  apply (Hpresent "app" "shop" "shop" Happ).
Defined.

(** C6: [getProjectResources] is the filter of the resources by
    [matchesProject]: it keeps exactly the matching resources, its result is
    a subsequence of the input in the input's order, and applying it to its
    own result changes nothing. *)
Theorem getProjectResources_filter project resources :
  getProjectResources project resources =
    List.filter (fun resource => matchesProject resource project) resources
  ∧ (∀ resource,
       resource ∈ getProjectResources project resources ↔
       resource ∈ resources ∧ matchesProject resource project = true)
  ∧ getProjectResources project resources `sublist_of` resources
  ∧ getProjectResources project (getProjectResources project resources) =
    getProjectResources project resources.
Proof.
  unfold getProjectResources. split; [reflexivity|]. split; [|split].
  - intros resource. rewrite !list_elem_of_In. apply filter_In.
  - apply filter_matches_sublist.
  - apply filter_matches_idempotent.
Qed.

(** C8: a resource whose [metadata], or whose [metadata.labels], is absent
    is handled like the same resource with an empty label mapping, by
    [matchesLabelSelector] and by [matchesProject]; both are total functions
    into [bool], the source reading [metadata] through [?.] only and
    defaulting the labels with [|| {}]. *)
Theorem matchesProject_labels_missing resource project :
  labelsMissing resource →
  matchesProject resource project =
    matchesProject (withEmptyLabels resource) project
  ∧ (∀ key selector,
       matchesLabelSelector resource key selector =
       matchesLabelSelector (withEmptyLabels resource) key selector)
  ∧ (∃ answer : bool, matchesProject resource project = answer).
Proof.
  intros Hmissing.
  assert (Hsel : ∀ key selector,
             matchesLabelSelector resource key selector =
             matchesLabelSelector (withEmptyLabels resource) key selector)
    by (intros; by apply matchesLabelSelector_missing).
  split; [|split; [exact Hsel|by eexists]].
  assert (Hlabels : matchesLabels resource project =
                    matchesLabels (withEmptyLabels resource) project)
    by (apply forallb_pointwise; intros entry; apply Hsel).
  unfold matchesProject. rewrite Hlabels. reflexivity.
Qed.

Lemma matchesProject_labels_missing_witness :
  labelsMissing (bareResource "Deployment" "cluster-a")
  ∧ matchesProject (bareResource "Deployment" "cluster-a") notShopProject
    = matchesProject (withEmptyLabels (bareResource "Deployment" "cluster-a"))
        notShopProject
  ∧ labelsMissing unlabelledPod
  ∧ matchesProject unlabelledPod notShopProject
    = matchesProject (withEmptyLabels unlabelledPod) notShopProject
  ∧ matchesProject (withEmptyLabels unlabelledPod) notShopProject = true.
Proof.
  assert (H1 : labelsMissing (bareResource "Deployment" "cluster-a"))
    by reflexivity.
  assert (H2 : labelsMissing unlabelledPod) by reflexivity.
  split; [exact H1|].
  split; [apply (matchesProject_labels_missing _ notShopProject H1)|].
  split; [exact H2|].
  split; [apply (matchesProject_labels_missing _ notShopProject H2)|].
  vm_compute. reflexivity.
Defined.

(** C9: a selector whose operator is neither ["Equals"] nor ["NotEquals"]
    (such as the ["Exists"] and ["NotExists"] of the form's operator menu)
    is answered [false] by [matchesLabelSelector] for every resource and
    key; hence a project whose [labelSelectors] hold such a selector matches
    no resource. *)
Theorem matchesLabelSelector_other_operator resource key selector :
  StringSelector.operator selector ≠ "Equals" →
  StringSelector.operator selector ≠ "NotEquals" →
  matchesLabelSelector resource key selector = false
  ∧ (∀ project,
       ProjectDefinition.labelSelectors project !! key = Some selector →
       matchesProject resource project = false).
Proof.
  intros HnotEquals HnotNotEquals.
  assert (Hfalse : matchesLabelSelector resource key selector = false).
  { unfold matchesLabelSelector. simpl.
    rewrite !bool_decide_eq_false_2 by assumption. reflexivity. }
  split; [exact Hfalse|].
  intros project Hentry. apply matchesProject_false_iff.
  intros [(_ & _ & _ & Hlabels) _].
  assert (Hne : ProjectDefinition.labelSelectors project ≠ ∅).
  { intros Hempty. rewrite Hempty, lookup_empty in Hentry. discriminate. }
  rewrite (Hlabels Hne key selector Hentry) in Hfalse. discriminate.
Qed.

Lemma matchesLabelSelector_other_operator_witness :
  matchesLabelSelector shopDeployment "component" (selector "Exists" "") = false
  ∧ matchesProject shopDeployment componentExistsProject = false.
Proof.
  assert (H1 : StringSelector.operator (selector "Exists" "") ≠ "Equals")
    by discriminate.
  assert (H2 : StringSelector.operator (selector "Exists" "") ≠ "NotEquals")
    by discriminate.
  destruct (matchesLabelSelector_other_operator shopDeployment "component"
              (selector "Exists" "") H1 H2) as [Hselector Hprojects].
  split; [exact Hselector|].
  apply Hprojects. vm_compute. reflexivity.
Defined.

(** C10: with [namespaceSelectors] non-empty, a resource that has no
    [metadata.namespace] (a cluster-scoped resource) is rejected, whatever
    the operators and values of the selectors. *)
Theorem matchesProject_cluster_scoped resource project :
  ProjectDefinition.namespaceSelectors project ≠ [] →
  resourceNamespace resource = None →
  matchesProject resource project = false.
Proof.
  intros Hne Habsent. apply matchesProject_false_iff.
  intros [(_ & _ & Hns & _) _].
  destruct (Hns Hne) as (ns & _ & Hvalue).
  rewrite Habsent in Hvalue. discriminate.
Qed.

Lemma matchesProject_cluster_scoped_witness :
  matchesProject clusterScopedNode notKubeSystemProject = false.
Proof.
  apply (matchesProject_cluster_scoped clusterScopedNode notKubeSystemProject).
  - discriminate.
  - reflexivity.
Defined.

(** * The health roll-up *)

(** C3, evaluated on the code: for the empty resource list
    [getResourcesHealth] yields the empty object. None of the keys
    ["success"], ["warning"], ["error"] is set in it, so it is not the
    record with three zero counts. *)
Theorem getResourcesHealth_nil (getStatus : KubeObject.t → string) :
  getResourcesHealth getStatus [] = ∅
  ∧ getResourcesHealth getStatus [] !! "success" = None
  ∧ getResourcesHealth getStatus [] !! "warning" = None
  ∧ getResourcesHealth getStatus [] !! "error" = None
  ∧ getResourcesHealth getStatus [] ≠ specEmptyHealth.
Proof.
  unfold getResourcesHealth, countBy. simpl.
  repeat split; try apply lookup_empty.
  intros Heq. apply (f_equal (lookup "success")) in Heq.
  vm_compute in Heq. discriminate.
Qed.

(** C7: on non-negative counts [getHealthIcon] is a priority order: the
    unknown marker when the counts sum to zero; otherwise the alert marker
    when some resource is unhealthy; otherwise the caution marker when some
    resource has a warning; otherwise the ok marker. With non-negative
    counts the sum is zero only when all three are, so any unhealthy count
    gives the alert marker. *)
Theorem getHealthIcon_priority (healthy unhealthy warning : Z) :
  (0 ≤ healthy)%Z → (0 ≤ unhealthy)%Z → (0 ≤ warning)%Z →
  ((healthy + unhealthy + warning = 0)%Z →
     getHealthIcon healthy unhealthy warning = "mdi:help-circle")
  ∧ ((healthy + unhealthy + warning ≠ 0)%Z → (0 < unhealthy)%Z →
     getHealthIcon healthy unhealthy warning = "mdi:alert-circle")
  ∧ ((healthy + unhealthy + warning ≠ 0)%Z → ¬ (0 < unhealthy)%Z →
     (0 < warning)%Z →
     getHealthIcon healthy unhealthy warning = "mdi:alert")
  ∧ ((healthy + unhealthy + warning ≠ 0)%Z → ¬ (0 < unhealthy)%Z →
     ¬ (0 < warning)%Z →
     getHealthIcon healthy unhealthy warning = "mdi:check-circle")
  ∧ ((0 < unhealthy)%Z →
     getHealthIcon healthy unhealthy warning = "mdi:alert-circle")
  ∧ (getHealthIcon healthy unhealthy warning = "mdi:help-circle" ↔
     healthy = 0%Z ∧ unhealthy = 0%Z ∧ warning = 0%Z).
Proof.
  intros Hh Hu Hw. unfold getHealthIcon.
  destruct (Z.eqb_spec (healthy + unhealthy + warning) 0) as [Hsum|Hsum];
    destruct (Z.ltb_spec 0 unhealthy) as [Hun|Hun];
    destruct (Z.ltb_spec 0 warning) as [Hwa|Hwa];
    repeat split; intros; try reflexivity; try lia; try discriminate.
Qed.

Lemma getHealthIcon_priority_witness :
  getHealthIcon 0 0 0 = "mdi:help-circle"
  ∧ getHealthIcon 0 1 0 = "mdi:alert-circle"
  ∧ getHealthIcon 0 0 1 = "mdi:alert"
  ∧ getHealthIcon 1 0 0 = "mdi:check-circle"
  ∧ getHealthIcon 2 1 3 = "mdi:alert-circle".
Proof.
  split; [apply (getHealthIcon_priority 0 0 0); lia|].
  split; [apply (getHealthIcon_priority 0 1 0); lia|].
  split; [apply (getHealthIcon_priority 0 0 1); lia|].
  split; [apply (getHealthIcon_priority 1 0 0); lia|].
  apply (getHealthIcon_priority 2 1 3); lia.
Defined.

(** * Further properties of projectUtils.ts *)

(** ** Counting by status *)

Lemma countBy_step_lookup (getStatus : KubeObject.t → string)
    (resources : list KubeObject.t) (acc : gmap string Z) (status : string) :
  foldl
    (fun result item =>
       let key := getStatus item in
       match result !! key with
       | Some n => <[key := (n + 1)%Z]> result
       | None => <[key := 1%Z]> result
       end) acc resources !! status =
  match statusCount getStatus status resources with
  | O => acc !! status
  | S n => Some (default 0%Z (acc !! status) + Z.of_nat (S n))%Z
  end.
Proof.
  unfold statusCount. revert acc.
  induction resources as [|r rs IH]; intros acc; [reflexivity|].
  cbn [foldl List.filter]. rewrite IH. clear IH.
  set (acc' := match acc !! getStatus r with
               | Some n => <[getStatus r := (n + 1)%Z]> acc
               | None => <[getStatus r := 1%Z]> acc
               end).
  assert (Hacc' : acc' !! status =
            if bool_decide (getStatus r = status)
            then Some (default 0%Z (acc !! status) + 1)%Z
            else acc !! status).
  { subst acc'. case_bool_decide as Heq.
    - subst status. destruct (acc !! getStatus r) eqn:Hr;
        rewrite lookup_insert_eq; simpl; f_equal; lia.
    - destruct (acc !! getStatus r); by rewrite lookup_insert_ne. }
  rewrite Hacc'. case_bool_decide; cbn [length];
    destruct (length _) as [|n]; simpl default; try reflexivity; f_equal; lia.
Qed.

Lemma sum_snd_permutation (l1 l2 : list (string * Z)) :
  l1 ≡ₚ l2 → foldr Z.add 0%Z (map snd l1) = foldr Z.add 0%Z (map snd l2).
Proof.
  induction 1 as [|x l l' _ IH|x y l|l l' l'' _ IH1 _ IH2]; simpl;
    [reflexivity|by rewrite IH|lia|congruence].
Qed.

Lemma healthTotal_insert (health : gmap string Z) (key : string) (n : Z) :
  healthTotal (<[key := n]> health) =
  (healthTotal health - default 0 (health !! key) + n)%Z.
Proof.
  unfold healthTotal. destruct (health !! key) as [m|] eqn:Hkey.
  - rewrite <- (insert_delete_eq health).
    rewrite (sum_snd_permutation _ ((key, n) :: map_to_list (delete key health)))
      by (apply map_to_list_insert, lookup_delete_eq).
    rewrite <- (sum_snd_permutation _ _ (map_to_list_delete health key m Hkey)).
    simpl. lia.
  - rewrite (sum_snd_permutation _ ((key, n) :: map_to_list health))
      by (by apply map_to_list_insert).
    simpl. lia.
Qed.

Lemma countBy_step_total (getStatus : KubeObject.t → string)
    (resources : list KubeObject.t) (acc : gmap string Z) :
  healthTotal
    (foldl
       (fun result item =>
          let key := getStatus item in
          match result !! key with
          | Some n => <[key := (n + 1)%Z]> result
          | None => <[key := 1%Z]> result
          end) acc resources) =
  (healthTotal acc + Z.of_nat (length resources))%Z.
Proof.
  revert acc. induction resources as [|r rs IH]; intros acc.
  - simpl. lia.
  - cbn [foldl length]. rewrite IH. cbv zeta.
    destruct (acc !! getStatus r) eqn:Hr; rewrite healthTotal_insert, Hr;
      simpl; lia.
Qed.

Lemma statusCount_pos (getStatus : KubeObject.t → string) (status : string)
    (resources : list KubeObject.t) :
  statusCount getStatus status resources ≠ 0 ↔
  ∃ r, r ∈ resources ∧ getStatus r = status.
Proof.
  unfold statusCount. split.
  - intros Hne.
    destruct (List.filter _ resources) as [|r l] eqn:Hf; [done|].
    assert (Hin : In r (List.filter
              (fun r => bool_decide (getStatus r = status)) resources))
      by (rewrite Hf; by left).
    apply filter_In in Hin as [Hin Hr].
    exists r. split; [by apply list_elem_of_In|by apply bool_decide_eq_true in Hr].
  - intros (r & Hin & Hr) Hlen.
    apply length_zero_iff_nil in Hlen.
    assert (Hf : In r (List.filter
              (fun r => bool_decide (getStatus r = status)) resources)).
    { apply filter_In. split; [by apply list_elem_of_In|].
      by apply bool_decide_eq_true. }
    rewrite Hlen in Hf. destruct Hf.
Qed.

Lemma health_bucket_lookup (getStatus : KubeObject.t → string)
    (resources : list KubeObject.t) (status : string) :
  getResourcesHealth getStatus resources !! status =
  (if decide (statusCount getStatus status resources = 0) then None
   else Some (Z.of_nat (statusCount getStatus status resources))).
Proof.
  unfold getResourcesHealth, countBy. rewrite countBy_step_lookup.
  rewrite lookup_empty.
  destruct (statusCount getStatus status resources); simpl; [done|].
  reflexivity.
Qed.

Lemma health_bucket_positive (getStatus : KubeObject.t → string)
    (resources : list KubeObject.t) (status : string) (n : Z) :
  getResourcesHealth getStatus resources !! status = Some n → (1 ≤ n)%Z.
Proof.
  rewrite health_bucket_lookup. destruct (decide _); [done|].
  intros [= <-]. lia.
Qed.

(** X1: a bucket of [getResourcesHealth] holds the number of resources that
    the classifier sends to that status, and it is not set at all when there
    is no such resource; a bucket that is set is at least 1, never 0. *)
Theorem getResourcesHealth_bucket (getStatus : KubeObject.t → string)
    (resources : list KubeObject.t) (status : string) :
  getResourcesHealth getStatus resources !! status =
    (if decide (statusCount getStatus status resources = 0) then None
     else Some (Z.of_nat (statusCount getStatus status resources)))
  ∧ (getResourcesHealth getStatus resources !! status = None ↔
     ∀ r, r ∈ resources → getStatus r ≠ status)
  ∧ (∀ n, getResourcesHealth getStatus resources !! status = Some n →
     (1 ≤ n)%Z).
Proof.
  pose proof (health_bucket_lookup getStatus resources status) as Hlookup.
  split; [exact Hlookup|]. rewrite Hlookup. split.
  - destruct (decide _) as [Hz|Hnz].
    + split; [|done]. intros _ r Hin Hr.
      apply (proj2 (statusCount_pos getStatus status resources));
        [by exists r|exact Hz].
    + split; [done|]. intros Hnone. exfalso.
      apply statusCount_pos in Hnz as (r & Hin & Hr). by apply (Hnone r).
  - intros n. destruct (decide _); [done|]. intros [= <-]. lia.
Qed.

Lemma getResourcesHealth_bucket_witness :
  getResourcesHealth sampleStatus [shopDeployment; clusterScopedNode]
    !! "success" = Some 1%Z
  ∧ (1 ≤ 1)%Z.
Proof.
  assert (Hbucket : getResourcesHealth sampleStatus
                      [shopDeployment; clusterScopedNode] !! "success"
                    = Some 1%Z) by (vm_compute; reflexivity).
  split; [exact Hbucket|].
  apply (getResourcesHealth_bucket sampleStatus
           [shopDeployment; clusterScopedNode] "success"), Hbucket.
Defined.

(** X2: the counts of all the buckets of [getResourcesHealth] add up to the
    number of resources: none is dropped and none is counted twice. *)
Theorem getResourcesHealth_total (getStatus : KubeObject.t → string)
    (resources : list KubeObject.t) :
  healthTotal (getResourcesHealth getStatus resources) =
  Z.of_nat (length resources).
Proof.
  unfold getResourcesHealth, countBy. rewrite countBy_step_total.
  unfold healthTotal. rewrite map_to_list_empty. simpl. lia.
Qed.

Lemma positiveCount_bucket (getStatus : KubeObject.t → string)
    (resources : list KubeObject.t) (status : string) :
  positiveCount (getResourcesHealth getStatus resources !! status) = true ↔
  ∃ r, r ∈ resources ∧ getStatus r = status.
Proof.
  rewrite <- statusCount_pos. rewrite health_bucket_lookup.
  destruct (decide _) as [Hz|Hnz]; simpl.
  - split; [discriminate|done].
  - split; [done|]. intros _. apply Z.ltb_lt. lia.
Qed.

Lemma sumIsZero_health (getStatus : KubeObject.t → string)
    (resources : list KubeObject.t) :
  sumIsZero (getResourcesHealth getStatus resources !! "success")
    (getResourcesHealth getStatus resources !! "error")
    (getResourcesHealth getStatus resources !! "warning") = false.
Proof.
  pose proof (health_bucket_positive getStatus resources "success") as Hs.
  pose proof (health_bucket_positive getStatus resources "error") as He.
  pose proof (health_bucket_positive getStatus resources "warning") as Hw.
  destruct (_ !! "success") as [h|]; [|reflexivity].
  destruct (_ !! "error") as [u|]; [|reflexivity].
  destruct (_ !! "warning") as [w|]; [|reflexivity].
  simpl. apply Z.eqb_neq.
  specialize (Hs h eq_refl). specialize (He u eq_refl).
  specialize (Hw w eq_refl). lia.
Qed.

(** X3: the icon that the views derive from [getResourcesHealth] is never
    the help icon of [getHealthIcon]'s zero-total branch. It is the alert
    circle exactly when some resource is in error, the alert exactly when
    none is in error and some has a warning, and the check circle otherwise,
    which includes the empty resource list. *)
Theorem healthIcon_of_resources (getStatus : KubeObject.t → string)
    (resources : list KubeObject.t) :
  healthIcon (getResourcesHealth getStatus resources) ≠ "mdi:help-circle"
  ∧ (healthIcon (getResourcesHealth getStatus resources) = "mdi:alert-circle"
     ↔ ∃ r, r ∈ resources ∧ getStatus r = "error")
  ∧ (healthIcon (getResourcesHealth getStatus resources) = "mdi:alert"
     ↔ (¬ ∃ r, r ∈ resources ∧ getStatus r = "error")
       ∧ ∃ r, r ∈ resources ∧ getStatus r = "warning")
  ∧ (healthIcon (getResourcesHealth getStatus resources) = "mdi:check-circle"
     ↔ (¬ ∃ r, r ∈ resources ∧ getStatus r = "error")
       ∧ ¬ ∃ r, r ∈ resources ∧ getStatus r = "warning")
  ∧ healthIcon (getResourcesHealth getStatus []) = "mdi:check-circle".
Proof.
  unfold healthIcon, getHealthIconOf. rewrite sumIsZero_health.
  rewrite <- !positiveCount_bucket.
  split; [|split; [|split; [|split]]].
  - repeat destruct (positiveCount _); discriminate.
  - repeat (destruct (positiveCount _); simpl); intuition congruence.
  - repeat (destruct (positiveCount _); simpl); intuition congruence.
  - repeat (destruct (positiveCount _); simpl); intuition congruence.
  - reflexivity.
Qed.

(** X4: the status label of [ProjectDetails] never reads "No Workloads": its
    test [projectHealth.success === 0] cannot hold for a health object made
    by [getResourcesHealth]. For the empty resource list the label reads
    "Healthy", where [ProjectList], which tests the number of resources,
    reads "No Resources". *)
Theorem projectDetailsHealthText_never_empty
    (getStatus : KubeObject.t → string) (resources : list KubeObject.t) :
  projectDetailsHealthText (getResourcesHealth getStatus resources)
    ≠ "No Workloads"
  ∧ projectDetailsHealthText (getResourcesHealth getStatus []) = "Healthy"
  ∧ projectListHealthText [] (getResourcesHealth getStatus [])
    = "No Resources"
  ∧ (resources ≠ [] →
     projectListHealthText resources (getResourcesHealth getStatus resources)
     = projectDetailsHealthText (getResourcesHealth getStatus resources)).
Proof.
  assert (Hsuccess : getResourcesHealth getStatus resources !! "success"
                     ≠ Some 0%Z).
  { intros H0. apply health_bucket_positive in H0. lia. }
  unfold projectDetailsHealthText, projectListHealthText.
  rewrite (bool_decide_eq_false_2 _ Hsuccess).
  split; [|split; [reflexivity|split; [reflexivity|]]].
  - repeat destruct (positiveCount _); discriminate.
  - intros Hne. destruct resources; [done|reflexivity].
Qed.

Lemma projectDetailsHealthText_never_empty_witness :
  projectListHealthText [shopDeployment; clusterScopedNode]
    (getResourcesHealth sampleStatus [shopDeployment; clusterScopedNode])
  = projectDetailsHealthText
      (getResourcesHealth sampleStatus [shopDeployment; clusterScopedNode])
  ∧ projectDetailsHealthText
      (getResourcesHealth sampleStatus [shopDeployment; clusterScopedNode])
    = "Unhealthy".
Proof.
  split; [|vm_compute; reflexivity].
  apply (projectDetailsHealthText_never_empty sampleStatus
           [shopDeployment; clusterScopedNode]).
  discriminate.
Defined.

(** ** Filters of projectUtils.ts *)



(** X6: [getProjectsForResource] keeps exactly the projects that the
    resource matches, in the order of the table's values; a project is among
    them iff the resource is among that project's resources, for any
    resource list that holds the resource. *)
Theorem getProjectsForResource_dual (resource : KubeObject.t)
    (projects : list ProjectDefinition.t) :
  (∀ p, p ∈ getProjectsForResource resource projects ↔
        p ∈ projects ∧ matchesProject resource p = true)
  ∧ getProjectsForResource resource projects `sublist_of` projects
  ∧ (∀ resources p, resource ∈ resources →
       (p ∈ getProjectsForResource resource projects ↔
        p ∈ projects ∧ resource ∈ getProjectResources p resources)).
Proof.
  assert (Hmem : ∀ p, p ∈ getProjectsForResource resource projects ↔
                      p ∈ projects ∧ matchesProject resource p = true).
  { intros p. unfold getProjectsForResource.
    rewrite !list_elem_of_In. apply filter_In. }
  split; [exact Hmem|split].
  - apply filter_matches_sublist.
  - intros resources p Hin. rewrite Hmem. unfold getProjectResources.
    split; intros [Hp Hmatch]; (split; [exact Hp|]).
    + apply list_elem_of_In, filter_In. split; [by apply list_elem_of_In|done].
    + apply list_elem_of_In, filter_In in Hmatch. tauto.
Qed.

Lemma getProjectsForResource_dual_witness :
  shopProject ∈ getProjectsForResource shopDeployment
                  [emptyProject; shopProject; notShopProject]
  ∧ getProjectsForResource shopDeployment
      [emptyProject; shopProject; notShopProject] = [shopProject].
Proof.
  assert (Hin : shopDeployment ∈ [otherNamespaceDeployment; shopDeployment])
    by (apply list_elem_of_In; simpl; tauto).
  split; [|vm_compute; reflexivity].
  destruct (getProjectsForResource_dual shopDeployment
              [emptyProject; shopProject; notShopProject])
    as (_ & _ & Hdual).
  apply (Hdual _ shopProject Hin). split.
  - apply list_elem_of_In. simpl. tauto.
  - apply list_elem_of_In. vm_compute. tauto.
Defined.

(** ** The projects reducers *)

Lemma keyedById_insert (projects : gmap string ProjectDefinition.t)
    (project : ProjectDefinition.t) :
  keyedById projects →
  keyedById (<[ProjectDefinition.id project := project]> projects).
Proof.
  intros Hkeyed key p. rewrite lookup_insert. case_decide as Hkey.
  - intros [= <-]. exact Hkey.
  - apply Hkeyed.
Qed.

Lemma keyedById_import (payload : list ProjectDefinition.t)
    (projects : gmap string ProjectDefinition.t) :
  keyedById projects →
  keyedById
    (foldl (fun projects project =>
              <[ProjectDefinition.id project := project]> projects)
       projects payload).
Proof.
  revert projects. induction payload as [|p ps IH]; intros projects Hkeyed;
    [exact Hkeyed|].
  simpl. apply IH, keyedById_insert, Hkeyed.
Qed.

Lemma findProject_lookup (projects : gmap string ProjectDefinition.t)
    (projectId : string) :
  keyedById projects → findProject projects projectId = projects !! projectId.
Proof.
  intros Hkeyed. unfold findProject, projectValues.
  destruct (List.find _ _) as [q|] eqn:Hfind.
  - apply find_some in Hfind as [Hin Hid].
    apply bool_decide_eq_true in Hid.
    apply in_map_iff in Hin as ([key q'] & Hq & Hin). simpl in Hq. subst q'.
    apply list_elem_of_In, elem_of_map_to_list in Hin.
    rewrite <- Hid, (Hkeyed _ _ Hin). by rewrite Hin.
  - destruct (projects !! projectId) as [p|] eqn:Hp; [|reflexivity].
    exfalso.
    assert (Hin : In p (map snd (map_to_list projects))).
    { apply in_map_iff. exists (projectId, p). split; [reflexivity|].
      by apply list_elem_of_In, elem_of_map_to_list. }
    pose proof (find_none _ _ Hfind p Hin) as Hno.
    apply bool_decide_eq_false in Hno. apply Hno, (Hkeyed _ _ Hp).
Qed.


Lemma find_app_first {A : Type} (f : A → bool) (l1 l2 : list A) :
  List.find f (l1 ++ l2) =
  match List.find f l1 with
  | Some x => Some x
  | None => List.find f l2
  end.
Proof.
  induction l1 as [|x l1 IH]; simpl; [reflexivity|].
  destruct (f x); [reflexivity|exact IH].
Qed.

Lemma import_fold_lookup (payload : list ProjectDefinition.t)
    (projects : gmap string ProjectDefinition.t) (key : string) :
  foldl (fun projects project =>
           <[ProjectDefinition.id project := project]> projects)
    projects payload !! key =
  match List.find (fun p => bool_decide (ProjectDefinition.id p = key))
          (rev payload) with
  | Some p => Some p
  | None => projects !! key
  end.
Proof.
  revert projects. induction payload as [|p ps IH]; intros projects;
    [reflexivity|].
  cbn [foldl rev]. rewrite IH, find_app_first.
  destruct (List.find _ (rev ps)); [reflexivity|]. simpl.
  rewrite lookup_insert. case_decide as Hkey.
  - by rewrite bool_decide_eq_true_2.
  - by rewrite bool_decide_eq_false_2.
Qed.

(** X7: the project that [createOrUpdateProjectAction] stores for the draft
    of [createDefaultAppProject] is filed under the generated id, restricts
    no kind, and is matched by exactly the resources whose label
    [app.kubernetes.io/name] is the application's name, whatever their kind,
    cluster and namespace. *)
Theorem createDefaultAppProject_matches
    (stringify : gmap string ProjectDefinition.t → string)
    (accepts : string → bool) (defaultApiResources : list ApiResource.t)
    (generatedId now : string) (state : ProjectsState.t) (appName : string) :
  ∃ project,
    ProjectsState.projects
      (createOrUpdateProjectAction stringify accepts defaultApiResources
         generatedId now state (createDefaultAppProject appName))
      !! generatedId = Some project
    ∧ ProjectDefinition.apiResources project = []
    ∧ ∀ resource,
        matchesProject resource project = true ↔
        resourceLabels resource !! "app.kubernetes.io/name" = Some appName.
Proof.
  eexists. split; [apply lookup_insert_eq|]. split; [reflexivity|].
  intros resource. rewrite matchesProject_true_iff.
  unfold groupsHold, labelsHold. simpl. split.
  - intros [(_ & _ & _ & Hlabels) _].
    assert (Hne : ({[ "app.kubernetes.io/name" :=
                       StringSelector.mk "Equals" appName ]}
                   : gmap string StringSelector.t) ≠ ∅)
      by apply insert_non_empty.
    specialize (Hlabels Hne _ _ (lookup_singleton_eq _ _)).
    unfold matchesLabelSelector in Hlabels. simpl in Hlabels.
    by apply bool_decide_eq_true in Hlabels.
  - intros Hlabel. split; [|left; apply insert_non_empty].
    repeat split; try done.
    intros _ key selector Hentry.
    apply lookup_singleton_Some in Hentry as [<- <-].
    unfold matchesLabelSelector. simpl. by apply bool_decide_eq_true.
Qed.

(** X8: the projects reducers keep the table keyed by project id: when every
    project is filed under its own [id], this is still so after any of
    [createOrUpdateProjectAction], [deleteProject], [importProjects] and
    [clearProjects]; and on such a table the scan
    [projects.find(p => p.id === projectId)] of the views yields exactly the
    project filed under [projectId]. *)
Theorem reduce_keyedById
    (stringify : gmap string ProjectDefinition.t → string)
    (accepts : string → bool) (defaultApiResources : list ApiResource.t)
    (state : ProjectsState.t) (action : ProjectAction) :
  keyedById (ProjectsState.projects state) →
  keyedById
    (ProjectsState.projects
       (reduce stringify accepts defaultApiResources state action))
  ∧ ∀ projectId,
      findProject
        (ProjectsState.projects
           (reduce stringify accepts defaultApiResources state action))
        projectId =
      ProjectsState.projects
        (reduce stringify accepts defaultApiResources state action)
        !! projectId.
Proof.
  intros Hkeyed.
  assert (Hafter : keyedById
            (ProjectsState.projects
               (reduce stringify accepts defaultApiResources state action))).
  { destruct action as [generatedId now payload|projectId|payload|]; simpl.
    - by apply keyedById_insert.
    - intros key p Hp. apply lookup_delete_Some in Hp as [_ Hp].
      by apply Hkeyed.
    - by apply keyedById_import.
    - intros key p Hp. by rewrite lookup_empty in Hp. }
  split; [exact Hafter|]. intros projectId. by apply findProject_lookup.
Qed.

Lemma reduce_keyedById_witness :
  findProject
    (ProjectsState.projects
       (reduce sampleStringify sampleAccepts [] emptyState
          (Import [shopProject; emptyProject]))) "p"
  = Some emptyProject.
Proof.
  assert (Hkeyed : keyedById (ProjectsState.projects emptyState)).
  { intros key p Hp. simpl in Hp. by rewrite lookup_empty in Hp. }
  destruct (reduce_keyedById sampleStringify sampleAccepts [] emptyState
              (Import [shopProject; emptyProject]) Hkeyed) as [_ Hfind].
  rewrite Hfind. vm_compute. reflexivity.
Defined.



(** X10: [importProjects] files each project of the payload under its id;
    of two projects with the same id the later one stays, and a project of
    the table whose id is not in the payload is kept as it is. *)
Theorem importProjects_lookup
    (stringify : gmap string ProjectDefinition.t → string)
    (accepts : string → bool) (state : ProjectsState.t)
    (payload : list ProjectDefinition.t) (key : string) :
  ProjectsState.projects (importProjects stringify accepts state payload)
    !! key =
  match List.find (fun p => bool_decide (ProjectDefinition.id p = key))
          (rev payload) with
  | Some p => Some p
  | None => ProjectsState.projects state !! key
  end.
Proof.
  unfold importProjects, saved. simpl. apply import_fold_lookup.
Qed.

(** X11: on a table keyed by project id, after [deleteProject] no resource
    is reported by [getProjectsForResource] as belonging to a project with
    the deleted id, and the projects with other ids are the same as
    before. *)
Theorem deleteProject_gone
    (stringify : gmap string ProjectDefinition.t → string)
    (accepts : string → bool) (state : ProjectsState.t)
    (projectId : string) :
  keyedById (ProjectsState.projects state) →
  (∀ resource p,
     p ∈ getProjectsForResource resource
           (projectValues
              (ProjectsState.projects
                 (deleteProject stringify accepts state projectId))) →
     ProjectDefinition.id p ≠ projectId)
  ∧ (∀ other, other ≠ projectId →
       ProjectsState.projects
         (deleteProject stringify accepts state projectId) !! other
       = ProjectsState.projects state !! other).
Proof.
  intros Hkeyed. split.
  - intros resource p Hin Hid.
    apply list_elem_of_In, filter_In in Hin as [Hin _].
    apply in_map_iff in Hin as ([key q] & Hq & Hin). simpl in Hq. subst q.
    apply list_elem_of_In, elem_of_map_to_list in Hin. simpl in Hin.
    apply lookup_delete_Some in Hin as [Hne Hp].
    apply Hne. rewrite <- Hid. exact (Hkeyed _ _ Hp).
  - intros other Hne. simpl. by apply lookup_delete_ne.
Qed.

Lemma deleteProject_gone_witness :
  ProjectsState.projects
    (deleteProject sampleStringify sampleAccepts
       (ProjectsState.mk {[ "p" := shopProject ]} None) "p") !! "q"
  = ProjectsState.projects
      (ProjectsState.mk {[ "p" := shopProject ]} None) !! "q"
  ∧ getProjectsForResource shopDeployment
      (projectValues
         (ProjectsState.projects
            (deleteProject sampleStringify sampleAccepts
               (ProjectsState.mk {[ "p" := shopProject ]} None) "p"))) = [].
Proof.
  assert (Hkeyed : keyedById
            (ProjectsState.projects
               (ProjectsState.mk {[ "p" := shopProject ]} None))).
  { intros key p Hp. simpl in Hp.
    apply lookup_singleton_Some in Hp as [<- <-]. reflexivity. }
  split; [|vm_compute; reflexivity].
  apply (deleteProject_gone sampleStringify sampleAccepts _ "p" Hkeyed).
  discriminate.
Defined.

(** * ProjectForm.tsx *)

(** ** Editing the rows of label selectors *)

Lemma withLabelSelectors_same (prev : ProjectDraft.t) :
  withLabelSelectors prev (ProjectDraft.labelSelectors prev) = prev.
Proof. by destruct prev. Qed.

Lemma truthyProperty_false (selectors : gmap string StringSelector.t)
    (key : string) :
  truthyProperty selectors key = false ↔
  selectors !! key = None ∧ key ∉ objectPrototypeKeys.
Proof.
  unfold truthyProperty. rewrite orb_false_iff, !bool_decide_eq_false.
  by rewrite <- eq_None_not_Some.
Qed.

Lemma handleLabelSelectorChange_rename_aux (key value : string)
    (prev : ProjectDraft.t) (selector : StringSelector.t) :
  ProjectDraft.labelSelectors prev !! key = Some selector →
  key = value ∨ is_Some (ProjectDraft.labelSelectors prev !! value)
  ∨ value ∈ objectPrototypeKeys →
  handleLabelSelectorChange key KeyField value prev = Some prev.
Proof.
  intros Hrow Hrefused. unfold handleLabelSelectorChange. cbv zeta.
  destruct (negb (bool_decide (key = value))
            && negb (truthyProperty _ value)) eqn:Hcond.
  - exfalso. apply andb_true_iff in Hcond as [Hk Hv].
    apply negb_true_iff in Hk, Hv.
    apply bool_decide_eq_false in Hk.
    apply truthyProperty_false in Hv as [Hfree Hown].
    destruct Hrefused as [Heq|[[s Hs]|Hproto]]; [done|congruence|done].
  - by rewrite withLabelSelectors_same.
Qed.

(** X12: renaming a row. When [key] has a row, the new key differs from
    [key], has no row and is no property name of [Object.prototype], the
    selector moves from [key] to the new key, every other row stays and the
    number of rows is the same. When the new key is [key] itself, has a row
    already or is such a property name, the draft is left as it is: a
    rename never overwrites a row. *)
Theorem handleLabelSelectorChange_rename (key value : string)
    (prev : ProjectDraft.t) (selector : StringSelector.t) :
  ProjectDraft.labelSelectors prev !! key = Some selector →
  (key ≠ value → ProjectDraft.labelSelectors prev !! value = None →
   value ∉ objectPrototypeKeys →
   ∃ next,
     handleLabelSelectorChange key KeyField value prev = Some next
     ∧ ProjectDraft.labelSelectors next !! value = Some selector
     ∧ ProjectDraft.labelSelectors next !! key = None
     ∧ (∀ other, other ≠ key → other ≠ value →
          ProjectDraft.labelSelectors next !! other =
          ProjectDraft.labelSelectors prev !! other)
     ∧ size (ProjectDraft.labelSelectors next) =
       size (ProjectDraft.labelSelectors prev))
  ∧ (key = value ∨ is_Some (ProjectDraft.labelSelectors prev !! value)
     ∨ value ∈ objectPrototypeKeys →
     handleLabelSelectorChange key KeyField value prev = Some prev).
Proof.
  intros Hrow. split.
  - intros Hne Hfree Hown. eexists.
    unfold handleLabelSelectorChange. cbv zeta.
    rewrite (bool_decide_eq_false_2 _ Hne).
    rewrite (proj2 (truthyProperty_false _ _) (conj Hfree Hown)), Hrow.
    split; [reflexivity|]. cbn [withLabelSelectors ProjectDraft.labelSelectors].
    split; [|split; [|split]].
    + rewrite lookup_delete_ne by done. apply lookup_insert_eq.
    + apply lookup_delete_eq.
    + intros other Hk Hv. rewrite lookup_delete_ne by done.
      by rewrite lookup_insert_ne.
    + rewrite map_size_delete_Some
        by (rewrite lookup_insert_ne by done; by rewrite Hrow).
      by rewrite map_size_insert_None.
  - intros Hrefused. by apply (handleLabelSelectorChange_rename_aux key value
                                 prev selector).
Qed.

Lemma handleLabelSelectorChange_rename_witness :
  (∃ next,
     handleLabelSelectorChange "app" KeyField "tier" shopDraft = Some next
     ∧ ProjectDraft.labelSelectors next !! "tier"
       = Some (StringSelector.mk "Equals" "shop")
     ∧ ProjectDraft.labelSelectors next !! "app" = None)
  ∧ handleLabelSelectorChange "app" KeyField "toString" shopDraft
    = Some shopDraft.
Proof.
  assert (Hrow : ProjectDraft.labelSelectors shopDraft !! "app"
                 = Some (StringSelector.mk "Equals" "shop"))
    by (vm_compute; reflexivity).
  destruct (handleLabelSelectorChange_rename "app" "tier" shopDraft _ Hrow)
    as [Hmove _].
  destruct (handleLabelSelectorChange_rename "app" "toString" shopDraft _ Hrow)
    as [_ Hkeep].
  split.
  - destruct Hmove as (next & Hnext & Hvalue & Hkey & _).
    + discriminate.
    + vm_compute. reflexivity.
    + intros Hin. apply list_elem_of_In in Hin. simpl in Hin.
      repeat (destruct Hin as [Hin|Hin]; [discriminate|]). exact Hin.
    + exists next. repeat split; assumption.
  - apply Hkeep. right; right. apply list_elem_of_In. simpl. tauto.
Defined.

(** X13: whatever the field and the new text, a change to a row that the
    form shows yields a draft, keeps the number of rows, leaves every other
    row as it was, and touches nothing but the label selectors. *)
Theorem handleLabelSelectorChange_keeps_rows (key : string)
    (field : SelectorField) (value : string) (prev : ProjectDraft.t) :
  is_Some (ProjectDraft.labelSelectors prev !! key) →
  ∃ next,
    handleLabelSelectorChange key field value prev = Some next
    ∧ size (ProjectDraft.labelSelectors next) =
      size (ProjectDraft.labelSelectors prev)
    ∧ (∀ other, other ≠ key → other ≠ value →
         ProjectDraft.labelSelectors next !! other =
         ProjectDraft.labelSelectors prev !! other)
    ∧ (∀ other selector, other ≠ key →
         ProjectDraft.labelSelectors prev !! other = Some selector →
         ProjectDraft.labelSelectors next !! other = Some selector)
    ∧ next = withLabelSelectors prev (ProjectDraft.labelSelectors next).
Proof.
  intros [selector Hrow].
  destruct field.
  - destruct (decide (key = value ∨
                      is_Some (ProjectDraft.labelSelectors prev !! value) ∨
                      value ∈ objectPrototypeKeys)) as [Hrefused|Hfree].
    + exists prev.
      split; [by apply (handleLabelSelectorChange_rename_aux key value prev
                          selector Hrow)|].
      rewrite withLabelSelectors_same. by repeat split.
    + assert (Hne : key ≠ value) by tauto.
      assert (Hnone : ProjectDraft.labelSelectors prev !! value = None).
      { apply eq_None_not_Some. tauto. }
      assert (Hown : value ∉ objectPrototypeKeys) by tauto.
      unfold handleLabelSelectorChange. cbv zeta.
      rewrite (bool_decide_eq_false_2 _ Hne).
      rewrite (proj2 (truthyProperty_false _ _) (conj Hnone Hown)), Hrow.
      eexists. split; [reflexivity|].
      cbn [withLabelSelectors ProjectDraft.labelSelectors].
      split; [|split; [|split; [|by destruct prev]]].
      * rewrite map_size_delete_Some
          by (rewrite lookup_insert_ne by done; by rewrite Hrow).
        by rewrite map_size_insert_None.
      * intros other Hk Hv. rewrite lookup_delete_ne by done.
        by rewrite lookup_insert_ne.
      * intros other s Hk Hs. rewrite lookup_delete_ne by done.
        rewrite lookup_insert_ne; [done|]. intros <-. congruence.
  - unfold handleLabelSelectorChange. cbv zeta. rewrite Hrow.
    eexists. split; [reflexivity|].
    cbn [withLabelSelectors ProjectDraft.labelSelectors].
    split; [|split; [|split; [|by destruct prev]]].
    + by rewrite map_size_insert_Some.
    + intros other Hk _. by rewrite lookup_insert_ne.
    + intros other s Hk Hs. by rewrite lookup_insert_ne.
  - unfold handleLabelSelectorChange. cbv zeta. rewrite Hrow.
    eexists. split; [reflexivity|].
    cbn [withLabelSelectors ProjectDraft.labelSelectors].
    split; [|split; [|split; [|by destruct prev]]].
    + by rewrite map_size_insert_Some.
    + intros other Hk _. by rewrite lookup_insert_ne.
    + intros other s Hk Hs. by rewrite lookup_insert_ne.
Qed.

Lemma handleLabelSelectorChange_keeps_rows_witness :
  ∃ next,
    handleLabelSelectorChange "app" OperatorField "NotEquals" shopDraft
      = Some next
    ∧ size (ProjectDraft.labelSelectors next) = 1.
Proof.
  assert (Hrow : is_Some (ProjectDraft.labelSelectors shopDraft !! "app"))
    by (vm_compute; eauto).
  destruct (handleLabelSelectorChange_keeps_rows "app" OperatorField
              "NotEquals" shopDraft Hrow) as (next & Hnext & Hsize & _).
  exists next. split; [exact Hnext|]. rewrite Hsize. vm_compute. reflexivity.
Defined.



(** X15: [addLabelSelector] puts the row [Equals ""] under the empty key and
    leaves every other row: a second click adds nothing, so there is at
    most one new row at a time, and a row that is already under the empty
    key is reset. [removeLabelSelector] on the empty key undoes the addition
    when there was no such row before. *)
Theorem addLabelSelector_row (prev : ProjectDraft.t) :
  ProjectDraft.labelSelectors (addLabelSelector prev) !! ""
    = Some (StringSelector.mk "Equals" "")
  ∧ (∀ key, key ≠ "" →
       ProjectDraft.labelSelectors (addLabelSelector prev) !! key =
       ProjectDraft.labelSelectors prev !! key)
  ∧ addLabelSelector (addLabelSelector prev) = addLabelSelector prev
  ∧ (ProjectDraft.labelSelectors prev !! "" = None →
     removeLabelSelector "" (addLabelSelector prev) = prev
     ∧ size (ProjectDraft.labelSelectors (addLabelSelector prev)) =
       S (size (ProjectDraft.labelSelectors prev)))
  ∧ (is_Some (ProjectDraft.labelSelectors prev !! "") →
     size (ProjectDraft.labelSelectors (addLabelSelector prev)) =
     size (ProjectDraft.labelSelectors prev)).
Proof.
  destruct prev as [i n d c ic ls ns cs apis ca ua].
  unfold addLabelSelector, removeLabelSelector, withLabelSelectors. simpl.
  split; [apply lookup_insert_eq|]. split; [|split; [|split]].
  - intros key Hkey. by rewrite lookup_insert_ne.
  - by rewrite insert_insert_eq.
  - intros Hnone. split.
    + f_equal. rewrite delete_insert_eq. by apply delete_id.
    + by apply map_size_insert_None.
  - intros Hsome. by apply map_size_insert_Some.
Qed.

Lemma addLabelSelector_row_witness :
  removeLabelSelector "" (addLabelSelector shopDraft) = shopDraft
  ∧ size (ProjectDraft.labelSelectors (addLabelSelector shopDraft)) = 2
  ∧ size (ProjectDraft.labelSelectors
            (addLabelSelector (addLabelSelector shopDraft))) = 2.
Proof.
  assert (Hnone : ProjectDraft.labelSelectors shopDraft !! "" = None)
    by (vm_compute; reflexivity).
  assert (Hsome : is_Some (ProjectDraft.labelSelectors
                             (addLabelSelector shopDraft) !! ""))
    by (vm_compute; eauto).
  destruct (addLabelSelector_row shopDraft) as (_ & _ & _ & Hfresh & _).
  destruct (addLabelSelector_row (addLabelSelector shopDraft))
    as (_ & _ & _ & _ & Hagain).
  destruct (Hfresh Hnone) as [Hundo Hsize].
  split; [exact Hundo|]. split.
  - rewrite Hsize. vm_compute. reflexivity.
  - rewrite (Hagain Hsome), Hsize. vm_compute. reflexivity.
Defined.

(** X16: the operator menu offers [Exists] and [NotExists]. Once a row of
    the draft carries an operator other than [Equals] and [NotEquals], the
    preview of the form shows no resource, whatever the cluster holds. *)
Theorem handleLabelSelectorChange_operator_preview (key operator : string)
    (prev : ProjectDraft.t) (resources : list KubeObject.t) :
  is_Some (ProjectDraft.labelSelectors prev !! key) →
  operator ≠ "Equals" → operator ≠ "NotEquals" →
  ∃ next,
    handleLabelSelectorChange key OperatorField operator prev = Some next
    ∧ getProjectResources (previewProject next) resources = [].
Proof.
  intros [selector Hrow] HnotEquals HnotNotEquals.
  unfold handleLabelSelectorChange. cbv zeta. rewrite Hrow.
  eexists. split; [reflexivity|].
  unfold getProjectResources.
  induction resources as [|r rs IH]; [reflexivity|]. simpl.
  rewrite IH.
  set (p := previewProject _).
  assert (Hfalse : matchesProject r p = false); [|by rewrite Hfalse].
  apply matchesProject_false_iff. intros [(_ & _ & _ & Hlabels) _].
  assert (Hentry : ProjectDefinition.labelSelectors p !! key =
            Some (StringSelector.mk operator (StringSelector.value selector)))
    by apply lookup_insert_eq.
  assert (Hne : ProjectDefinition.labelSelectors p ≠ ∅) by apply insert_non_empty.
  specialize (Hlabels Hne _ _ Hentry).
  unfold matchesLabelSelector in Hlabels. simpl in Hlabels.
  rewrite !bool_decide_eq_false_2 in Hlabels by done. discriminate.
Qed.

Lemma handleLabelSelectorChange_operator_preview_witness :
  ∃ next,
    handleLabelSelectorChange "app" OperatorField "Exists" shopDraft
      = Some next
    ∧ getProjectResources (previewProject next)
        [shopDeployment; otherNamespaceDeployment] = [].
Proof.
  apply (handleLabelSelectorChange_operator_preview "app" "Exists" shopDraft).
  - vm_compute. eauto.
  - discriminate.
  - discriminate.
Defined.

(** ** Submitting the form *)

Lemma validate_passes (trim t : string → string) (project : ProjectDraft.t) :
  (0 <? length (map_to_list (validate trim t project)))%nat = false ↔
  trim (ProjectDraft.name project) ≠ ""
  ∧ (ProjectDraft.labelSelectors project ≠ ∅
     ∨ ProjectDraft.namespaceSelectors project ≠ []).
Proof.
  rewrite <- (entries_empty_iff (ProjectDraft.labelSelectors project)).
  rewrite Nat.ltb_ge, Nat.le_0_r, length_zero_iff_nil, map_to_list_empty_iff.
  unfold validate. cbv zeta.
  destruct (map_to_list (ProjectDraft.labelSelectors project)) as [|e es],
    (ProjectDraft.namespaceSelectors project) as [|n ns];
    case_bool_decide as Hname; simpl; split;
    try (intros Hempty; exfalso; by apply (insert_non_empty _ _ _ Hempty));
    try (intros [Hn Hsel]; exfalso; tauto);
    try (intros _; split; [done|]; (by left) || (by right));
    try done.
Qed.

Lemma handleSubmit_dispatched (trim t : string → string)
    (stringify : gmap string ProjectDefinition.t → string)
    (accepts : string → bool) (defaultApiResources : list ApiResource.t)
    (projectId : option string)
    (randomId createdNow updatedNow generatedId now : string)
    (project : ProjectDraft.t) (state after : ProjectsState.t)
    (id : string) :
  handleSubmit trim t stringify accepts defaultApiResources projectId
    randomId createdNow updatedNow generatedId now project state
  = Dispatched after id →
  (0 <? length (map_to_list (validate trim t project)))%nat = false
  ∧ id = default randomId
           (ProjectDefinition.id <$> existingProject state projectId)
  ∧ ProjectsState.projects after =
    <[id := ProjectDefinition.mk id (ProjectDraft.name project)
              (ProjectDraft.description project) (ProjectDraft.color project)
              (ProjectDraft.icon project)
              (ProjectDraft.labelSelectors project)
              (ProjectDraft.namespaceSelectors project)
              (ProjectDraft.clusterSelectors project)
              (default defaultApiResources (ProjectDraft.apiResources project))
              createdNow now]> (ProjectsState.projects state).
Proof.
  unfold handleSubmit. cbv zeta.
  destruct (0 <? length _)%nat; [discriminate|].
  intros [= <- <-]. by repeat split.
Qed.

(** X17: [handleSubmit] dispatches the project exactly when the trimmed name
    is not empty and the draft has a label selector or a namespace selector.
    The project it stores carries the draft's selector groups, so it is
    never rejected by [matchesProject] for want of selectors: a resource
    matches it exactly when all its non-empty groups hold. *)
Theorem handleSubmit_accepts (trim t : string → string)
    (stringify : gmap string ProjectDefinition.t → string)
    (accepts : string → bool) (defaultApiResources : list ApiResource.t)
    (projectId : option string)
    (randomId createdNow updatedNow generatedId now : string)
    (project : ProjectDraft.t) (state : ProjectsState.t) :
  ((∃ after id,
      handleSubmit trim t stringify accepts defaultApiResources projectId
        randomId createdNow updatedNow generatedId now project state
      = Dispatched after id) ↔
   trim (ProjectDraft.name project) ≠ ""
   ∧ (ProjectDraft.labelSelectors project ≠ ∅
      ∨ ProjectDraft.namespaceSelectors project ≠ []))
  ∧ ∀ after id,
      handleSubmit trim t stringify accepts defaultApiResources projectId
        randomId createdNow updatedNow generatedId now project state
      = Dispatched after id →
      ∃ stored,
        ProjectsState.projects after !! id = Some stored
        ∧ ProjectDefinition.id stored = id
        ∧ ProjectDefinition.labelSelectors stored =
          ProjectDraft.labelSelectors project
        ∧ ProjectDefinition.namespaceSelectors stored =
          ProjectDraft.namespaceSelectors project
        ∧ ProjectDefinition.clusterSelectors stored =
          ProjectDraft.clusterSelectors project
        ∧ ∀ resource,
            matchesProject resource stored = true ↔
            groupsHold resource stored.
Proof.
  split.
  - rewrite <- (validate_passes trim t). unfold handleSubmit. cbv zeta.
    destruct (0 <? length _)%nat.
    + split; [|intros Habs; discriminate Habs].
      intros (after & id & Habs). discriminate Habs.
    + split; [intros _; reflexivity|]. intros _. by do 2 eexists.
  - intros after id Hsubmit.
    apply handleSubmit_dispatched in Hsubmit as (Hvalid & _ & Hafter).
    apply (validate_passes trim t) in Hvalid as [_ Hselectors].
    eexists. split; [rewrite Hafter; apply lookup_insert_eq|].
    repeat (split; [reflexivity|]).
    intros resource. rewrite matchesProject_true_iff. simpl. tauto.
Qed.

Lemma handleSubmit_accepts_witness :
  ∃ stored,
    ProjectsState.projects
      (createOrUpdateProjectAction sampleStringify sampleAccepts [] "g" "now"
         emptyState
         (ProjectDraft.mk (Some "r") "shop" None (Some "#1976d2")
            (Some "mdi:folder-multiple")
            {[ "app" := StringSelector.mk "Equals" "shop" ]} [] []
            (Some []) (Some "c") (Some "u")))
      !! "r" = Some stored
    ∧ ProjectDefinition.id stored = "r".
Proof.
  destruct (handleSubmit_accepts sampleTrim sampleTranslate sampleStringify
              sampleAccepts [] None "r" "c" "u" "g" "now" shopDraft
              emptyState) as [_ Hstored].
  destruct (Hstored _ "r" eq_refl) as (stored & Hlookup & Hid & _).
  exists stored. split; assumption.
Defined.

(** X18: submitting the form for a project that is in the table replaces
    that project under its own id, so the table keeps its size; the stored
    [createdAt] is the time of the submit, not the one the project had. *)
Theorem handleSubmit_edit (trim t : string → string)
    (stringify : gmap string ProjectDefinition.t → string)
    (accepts : string → bool) (defaultApiResources : list ApiResource.t)
    (projectId randomId createdNow updatedNow generatedId now : string)
    (project : ProjectDraft.t) (state after : ProjectsState.t)
    (id : string) :
  keyedById (ProjectsState.projects state) →
  projectId ≠ "" →
  is_Some (ProjectsState.projects state !! projectId) →
  handleSubmit trim t stringify accepts defaultApiResources (Some projectId)
    randomId createdNow updatedNow generatedId now project state
  = Dispatched after id →
  id = projectId
  ∧ size (ProjectsState.projects after) = size (ProjectsState.projects state)
  ∧ (∀ other, other ≠ projectId →
       ProjectsState.projects after !! other =
       ProjectsState.projects state !! other)
  ∧ ∃ stored,
      ProjectsState.projects after !! projectId = Some stored
      ∧ ProjectDefinition.createdAt stored = createdNow
      ∧ ProjectDefinition.updatedAt stored = now.
Proof.
  intros Hkeyed Hne [old Hold] Hsubmit.
  apply handleSubmit_dispatched in Hsubmit as (_ & Hid & Hafter).
  unfold existingProject in Hid.
  rewrite (bool_decide_eq_false_2 _ Hne) in Hid.
  rewrite (findProject_lookup _ _ Hkeyed), Hold in Hid. simpl in Hid.
  rewrite (Hkeyed _ _ Hold) in Hid. subst id. rewrite Hafter.
  split; [reflexivity|]. split; [by apply map_size_insert_Some|].
  split; [intros other Hother; by rewrite lookup_insert_ne|].
  eexists. split; [apply lookup_insert_eq|]. by split.
Qed.

Lemma handleSubmit_edit_witness :
  ∃ after,
    handleSubmit sampleTrim sampleTranslate sampleStringify sampleAccepts []
      (Some "p") "r" "c" "u" "g" "now" shopDraft
      (ProjectsState.mk {[ "p" := shopProject ]} None)
    = Dispatched after "p"
    ∧ size (ProjectsState.projects after) = 1.
Proof.
  assert (Hkeyed : keyedById
            (ProjectsState.projects
               (ProjectsState.mk {[ "p" := shopProject ]} None))).
  { intros key p Hp. simpl in Hp.
    apply lookup_singleton_Some in Hp as [<- <-]. reflexivity. }
  eexists. split; [vm_compute; reflexivity|].
  match goal with
  | |- size (ProjectsState.projects ?after) = _ =>
      destruct (handleSubmit_edit sampleTrim sampleTranslate sampleStringify
                  sampleAccepts [] "p" "r" "c" "u" "g" "now" shopDraft
                  (ProjectsState.mk {[ "p" := shopProject ]} None) after "p"
                  Hkeyed) as (_ & Hsize & _)
  end.
  - discriminate.
  - vm_compute. eauto.
  - vm_compute. reflexivity.
  - rewrite Hsize. vm_compute. reflexivity.
Defined.

(** * useLabelSuggestions.ts *)

Lemma firstAppLabel_Some (labels : gmap string string) (keys : list string)
    (info : AppInfo.t) :
  firstAppLabel labels keys = Some info →
  ∃ before after,
    keys = (before ++ AppInfo.labelKey info :: after)%list
    ∧ (∀ key, key ∈ before → truthyLabel (labels !! key) = false)
    ∧ labels !! AppInfo.labelKey info = Some (AppInfo.labelValue info)
    ∧ AppInfo.labelValue info ≠ ""
    ∧ AppInfo.appName info = AppInfo.labelValue info.
Proof.
  induction keys as [|key keys IH]; [discriminate|]. simpl.
  destruct (labels !! key) as [text|] eqn:Hkey.
  - case_bool_decide as Htext; simpl.
    + intros Hrest. destruct (IH Hrest) as (before & after & -> & Hb & Hrest').
      exists (key :: before), after. split; [reflexivity|]. split; [|exact Hrest'].
      intros k Hk. apply elem_of_cons in Hk as [->|Hk]; [|by apply Hb].
      rewrite Hkey. simpl. by rewrite bool_decide_eq_true_2.
    + intros [= <-]. exists [], keys. simpl. repeat split; try done.
      intros k Hk. by apply elem_of_nil in Hk.
  - intros Hrest. destruct (IH Hrest) as (before & after & -> & Hb & Hrest').
    exists (key :: before), after. split; [reflexivity|]. split; [|exact Hrest'].
    intros k Hk. apply elem_of_cons in Hk as [->|Hk]; [|by apply Hb].
    by rewrite Hkey.
Qed.

Lemma firstAppLabel_None (labels : gmap string string) (keys : list string) :
  firstAppLabel labels keys = None ↔
  ∀ key, key ∈ keys → truthyLabel (labels !! key) = false.
Proof.
  induction keys as [|key keys IH]; simpl.
  - split; [|done]. intros _ k Hk. by apply elem_of_nil in Hk.
  - destruct (labels !! key) as [text|] eqn:Hkey.
    + case_bool_decide as Htext; simpl.
      * rewrite IH. split.
        -- intros Hall k Hk. apply elem_of_cons in Hk as [->|Hk];
             [|by apply Hall].
           rewrite Hkey. simpl. by rewrite bool_decide_eq_true_2.
        -- intros Hall k Hk. apply Hall. by right.
      * split; [discriminate|]. intros Hall.
        specialize (Hall key (list_elem_of_here _ _)).
        rewrite Hkey in Hall. simpl in Hall.
        by rewrite bool_decide_eq_false_2 in Hall.
    + rewrite IH. split.
      * intros Hall k Hk. apply elem_of_cons in Hk as [->|Hk];
          [|by apply Hall].
        by rewrite Hkey.
      * intros Hall k Hk. apply Hall. by right.
Qed.

Lemma getAppName_first_aux (resource : KubeObject.t) (info : AppInfo.t) :
  getAppName resource = Normal (Some info) →
  ∃ before after,
    APP_LABEL_KEYS = (before ++ AppInfo.labelKey info :: after)%list
    ∧ (∀ key, key ∈ before →
         truthyLabel (resourceLabels resource !! key) = false)
    ∧ resourceLabels resource !! AppInfo.labelKey info =
      Some (AppInfo.labelValue info)
    ∧ AppInfo.labelValue info ≠ ""
    ∧ AppInfo.appName info = AppInfo.labelValue info.
Proof.
  unfold getAppName, resourceLabels.
  destruct (KubeObject.metadata resource) as [metadata|];
    cbn [mbind option_bind]; [|discriminate].
  intros [= Hinfo]. by apply firstAppLabel_Some.
Qed.

Lemma getAppName_raises (resource : KubeObject.t) :
  getAppName resource = TypeError ↔ KubeObject.metadata resource = None.
Proof.
  unfold getAppName. destruct (KubeObject.metadata resource); split;
    try discriminate; reflexivity.
Qed.

(** X19: [getAppName] raises exactly when the resource has no [metadata]
    (it reads [resource.metadata.labels] without [?.], unlike the matcher).
    Otherwise it answers with the first key of [APP_LABEL_KEYS] whose label
    is set and not empty: the keys before it have no such label, the value
    reported is that label and it is also the application name. It answers
    [null] exactly when no key of [APP_LABEL_KEYS] has such a label. *)
Theorem getAppName_first (resource : KubeObject.t) :
  (getAppName resource = TypeError ↔ KubeObject.metadata resource = None)
  ∧ (∀ info,
       getAppName resource = Normal (Some info) →
       ∃ before after,
         APP_LABEL_KEYS = (before ++ AppInfo.labelKey info :: after)%list
         ∧ (∀ key, key ∈ before →
              truthyLabel (resourceLabels resource !! key) = false)
         ∧ resourceLabels resource !! AppInfo.labelKey info =
           Some (AppInfo.labelValue info)
         ∧ AppInfo.labelValue info ≠ ""
         ∧ AppInfo.appName info = AppInfo.labelValue info)
  ∧ (getAppName resource = Normal None ↔
     KubeObject.metadata resource ≠ None
     ∧ ∀ key, key ∈ APP_LABEL_KEYS →
         truthyLabel (resourceLabels resource !! key) = false).
Proof.
  unfold getAppName, resourceLabels.
  destruct (KubeObject.metadata resource) as [metadata|];
    cbn [mbind option_bind].
  - split; [split; discriminate|]. split.
    + intros info [= Hinfo]. by apply firstAppLabel_Some.
    + rewrite <- firstAppLabel_None. split.
      * intros [= Hnone]. by split.
      * intros [_ Hnone]. by rewrite Hnone.
  - split; [done|]. split; [discriminate|].
    split; [discriminate|]. intros [Habs _]. done.
Qed.

Lemma getAppName_first_witness :
  ∃ before after,
    APP_LABEL_KEYS = (before ++ "app" :: after)%list
    ∧ (∀ key, key ∈ before →
         truthyLabel (resourceLabels shopDeployment !! key) = false).
Proof.
  destruct (getAppName_first shopDeployment) as (_ & Hfirst & _).
  destruct (Hfirst (AppInfo.mk "shop" "app" "shop") eq_refl)
    as (before & after & Hkeys & Hbefore & _).
  exists before, after. split; assumption.
Defined.

Lemma appSummary_push (appMap : list (string * AppEntry.t)) (appName : string)
    (resource : KubeObject.t) :
  appSummary (appMapPush appMap appName resource) = appSummary appMap.
Proof.
  unfold appSummary, appMapPush. rewrite map_map. apply map_ext.
  intros [name entry]. simpl. by case_bool_decide.
Qed.

Lemma appMapHas_true (appMap : list (string * AppEntry.t)) (appName : string) :
  appMapHas appMap appName = true ↔
  appName ∈ map (fun entry => fst (fst entry)) (appSummary appMap).
Proof.
  unfold appMapHas, appSummary. rewrite map_map. simpl.
  rewrite existsb_elem_of, list_elem_of_In, in_map_iff. split.
  - intros (entry & Hin & Hname). apply bool_decide_eq_true in Hname.
    exists entry. split; [done|]. by apply list_elem_of_In.
  - intros (entry & Hname & Hin). exists entry.
    split; [by apply list_elem_of_In|]. by apply bool_decide_eq_true.
Qed.

Lemma appSummary_record (appMap : list (string * AppEntry.t))
    (info : AppInfo.t) (resource : KubeObject.t) :
  appSummary (appMapRecord appMap info resource) =
  if appMapHas appMap (AppInfo.appName info) then appSummary appMap
  else (appSummary appMap
        ++ [(AppInfo.appName info, AppInfo.labelKey info,
             AppInfo.labelValue info)])%list.
Proof.
  unfold appMapRecord. cbv zeta. rewrite appSummary_push.
  destruct (appMapHas appMap (AppInfo.appName info)); simpl; [reflexivity|].
  unfold appSummary. by rewrite map_app.
Qed.

Lemma getAppName_name (resource : KubeObject.t) (info : AppInfo.t) :
  getAppName resource = Normal (Some info) →
  AppInfo.appName info = AppInfo.labelValue info.
Proof.
  intros Hinfo. destruct (getAppName_first_aux resource info Hinfo)
    as (before & after & _ & _ & _ & _ & Hname). exact Hname.
Qed.

Lemma appMapOf_skip (seen : list KubeObject.t)
    (appMap : list (string * AppEntry.t)) (resource : KubeObject.t) :
  appMapOf seen appMap → getAppName resource = Normal None →
  appMapOf (seen ++ [resource]) appMap.
Proof.
  intros (Hnodup & Hsound & Hcover) Hnone. split; [exact Hnodup|]. split.
  - intros name key value Hin. destruct (Hsound _ _ _ Hin) as [Hv (r & Hr & Hget)].
    split; [exact Hv|]. exists r. split; [|exact Hget].
    apply elem_of_app. by left.
  - intros r info Hr Hget. apply elem_of_app in Hr as [Hr|Hr].
    + by apply (Hcover r).
    + apply list_elem_of_singleton in Hr as ->. congruence.
Qed.

Lemma appMapOf_record (seen : list KubeObject.t)
    (appMap : list (string * AppEntry.t)) (resource : KubeObject.t)
    (info : AppInfo.t) :
  appMapOf seen appMap → getAppName resource = Normal (Some info) →
  appMapOf (seen ++ [resource]) (appMapRecord appMap info resource).
Proof.
  intros (Hnodup & Hsound & Hcover) Hinfo.
  pose proof (getAppName_name _ _ Hinfo) as Hname.
  unfold appMapOf. rewrite appSummary_record.
  destruct (appMapHas appMap (AppInfo.appName info)) eqn:Hhas.
  - split; [exact Hnodup|]. split.
    + intros name key value Hin.
      destruct (Hsound _ _ _ Hin) as [Hv (r & Hr & Hget)].
      split; [exact Hv|]. exists r. split; [|exact Hget].
      apply elem_of_app. by left.
    + intros r info' Hr Hget. apply elem_of_app in Hr as [Hr|Hr].
      * by apply (Hcover r).
      * apply list_elem_of_singleton in Hr as ->.
        assert (info' = info) as -> by congruence.
        apply appMapHas_true, list_elem_of_fmap in Hhas
          as ([[name key] value] & Hn & Hin).
        simpl in Hn. subst name. eauto.
  - assert (Hfresh : AppInfo.appName info ∉
              map (fun entry => fst (fst entry)) (appSummary appMap)).
    { intros Hin. apply appMapHas_true in Hin. congruence. }
    split; [|split].
    + rewrite map_app. simpl. apply NoDup_app. split; [exact Hnodup|].
      split; [|apply NoDup_singleton].
      intros name Hin Hnew. apply list_elem_of_singleton in Hnew as ->. done.
    + intros name key value Hin. apply elem_of_app in Hin as [Hin|Hin].
      * destruct (Hsound _ _ _ Hin) as [Hv (r & Hr & Hget)].
        split; [exact Hv|]. exists r. split; [|exact Hget].
        apply elem_of_app. by left.
      * apply list_elem_of_singleton in Hin as [= -> -> ->].
        split; [by symmetry|]. exists resource.
        split; [apply elem_of_app; right; by apply list_elem_of_singleton|].
        by destruct info.
    + intros r info' Hr Hget. apply elem_of_app in Hr as [Hr|Hr].
      * destruct (Hcover r info' Hr Hget) as (key & value & Hin).
        exists key, value. apply elem_of_app. by left.
      * apply list_elem_of_singleton in Hr as ->.
        assert (info' = info) as -> by congruence.
        exists (AppInfo.labelKey info), (AppInfo.labelValue info).
        apply elem_of_app. right. by apply list_elem_of_singleton.
Qed.

Lemma collectApps_appMapOf (resources : list KubeObject.t) :
  ∀ (seen : list KubeObject.t) (appMap result : list (string * AppEntry.t)),
    collectApps resources appMap = Normal result →
    appMapOf seen appMap → appMapOf (seen ++ resources) result.
Proof.
  induction resources as [|r rs IH]; intros seen appMap result.
  - simpl. intros [= <-]. by rewrite app_nil_r.
  - simpl. destruct (getAppName r) as [[info|]|] eqn:Hget; [| |discriminate].
    + intros Hrest Hinv.
      replace (seen ++ r :: rs)%list with ((seen ++ [r]) ++ rs)%list
        by (by rewrite <- app_assoc).
      apply (IH _ _ _ Hrest). by apply appMapOf_record.
    + intros Hrest Hinv.
      replace (seen ++ r :: rs)%list with ((seen ++ [r]) ++ rs)%list
        by (by rewrite <- app_assoc).
      apply (IH _ _ _ Hrest). by apply appMapOf_skip.
Qed.

Lemma collectApps_TypeError (resources : list KubeObject.t) :
  ∀ appMap : list (string * AppEntry.t),
    collectApps resources appMap = TypeError ↔
    ∃ r, r ∈ resources ∧ KubeObject.metadata r = None.
Proof.
  induction resources as [|r rs IH]; intros appMap; simpl.
  - split; [discriminate|]. intros (r & Hr & _). by apply elem_of_nil in Hr.
  - pose proof (getAppName_raises r) as Hraise.
    destruct (getAppName r) as [[info|]|] eqn:Hget.
    + rewrite IH. split.
      * intros (r' & Hr' & Hmeta). exists r'. split; [by right|done].
      * intros (r' & Hr' & Hmeta). apply elem_of_cons in Hr' as [->|Hr'].
        -- apply Hraise in Hmeta. discriminate.
        -- by exists r'.
    + rewrite IH. split.
      * intros (r' & Hr' & Hmeta). exists r'. split; [by right|done].
      * intros (r' & Hr' & Hmeta). apply elem_of_cons in Hr' as [->|Hr'].
        -- apply Hraise in Hmeta. discriminate.
        -- by exists r'.
    + split; [|done]. intros _. exists r. split; [by left|by apply Hraise].
Qed.

(** ** Sorting the suggestions *)

Lemma string_ltb_false_leb (a b : string) :
  String.ltb a b = false → String.leb b a = true.
Proof.
  unfold String.ltb, String.leb. rewrite (String.compare_antisym a b).
  destruct (String.compare b a); simpl; congruence.
Qed.

Lemma string_ltb_leb (a b : string) :
  String.ltb a b = true → String.leb a b = true.
Proof.
  unfold String.ltb, String.leb. destruct (String.compare a b); congruence.
Qed.

Lemma insertByValue_perm (suggestion : Suggestion.t)
    (sorted : list Suggestion.t) :
  insertByValue suggestion sorted ≡ₚ suggestion :: sorted.
Proof.
  induction sorted as [|next sorted IH]; simpl; [done|].
  destruct (String.ltb _ _); [done|].
  rewrite IH. apply Permutation_swap.
Qed.

Lemma sortByValue_perm (suggestions : list Suggestion.t) :
  sortByValue suggestions ≡ₚ suggestions.
Proof.
  unfold sortByValue.
  assert (Hacc : ∀ acc, foldl (fun sorted s => insertByValue s sorted) acc
                          suggestions ≡ₚ (acc ++ suggestions)%list).
  { induction suggestions as [|s l IH]; intros acc; simpl.
    - by rewrite app_nil_r.
    - rewrite IH, insertByValue_perm. simpl. apply Permutation_middle. }
  apply Hacc.
Qed.

Lemma insertByValue_ascending (suggestion : Suggestion.t)
    (sorted : list Suggestion.t) :
  ascendingByValue sorted → ascendingByValue (insertByValue suggestion sorted).
Proof.
  unfold ascendingByValue.
  induction sorted as [|next sorted IH]; simpl; intros Hsorted.
  - repeat constructor.
  - apply Sorted_inv in Hsorted as [Hrest Hhead].
    destruct (String.ltb _ _) eqn:Hlt.
    + constructor; [by constructor|]. constructor. by apply string_ltb_leb.
    + constructor; [by apply IH|].
      destruct sorted as [|after sorted]; simpl.
      * constructor. by apply string_ltb_false_leb.
      * destruct (String.ltb _ (Suggestion.value after)).
        -- constructor. by apply string_ltb_false_leb.
        -- constructor. by apply HdRel_inv in Hhead.
Qed.

Lemma sortByValue_ascending (suggestions : list Suggestion.t) :
  ascendingByValue (sortByValue suggestions).
Proof.
  unfold sortByValue.
  assert (Hacc : ∀ acc, ascendingByValue acc →
            ascendingByValue
              (foldl (fun sorted s => insertByValue s sorted) acc suggestions)).
  { induction suggestions as [|s l IH]; intros acc Hsorted; simpl; [done|].
    by apply IH, insertByValue_ascending. }
  apply Hacc. constructor.
Qed.

Lemma suggestedSelectors_summary
    (deployments replicaSets statefulSets daemonSets
       : option (list KubeObject.t)) (suggestions : list Suggestion.t) :
  suggestedSelectors deployments replicaSets statefulSets daemonSets
    = Normal suggestions →
  ∃ appMap,
    appMapOf (allResources deployments replicaSets statefulSets daemonSets)
      appMap
    ∧ suggestions ≡ₚ
      map (fun entry => Suggestion.mk (snd (fst entry)) (snd entry))
        (appSummary appMap)
    ∧ ascendingByValue suggestions.
Proof.
  unfold suggestedSelectors.
  destruct (collectApps _ []) as [appMap|] eqn:Hcollect; [|discriminate].
  intros [= <-]. exists appMap. split; [|split].
  - apply (collectApps_appMapOf _ [] [] appMap Hcollect).
    split; [constructor|]. split.
    + intros name key value Hin. by apply elem_of_nil in Hin.
    + intros r info Hr. by apply elem_of_nil in Hr.
  - rewrite sortByValue_perm. unfold appSummary. by rewrite map_map.
  - apply sortByValue_ascending.
Qed.

(** X20: the suggestions of [useLabelSuggestions] are in ascending order of
    their values and no two of them have the same value: each application
    name is suggested once. *)
Theorem suggestedSelectors_sorted_distinct
    (deployments replicaSets statefulSets daemonSets
       : option (list KubeObject.t)) (suggestions : list Suggestion.t) :
  suggestedSelectors deployments replicaSets statefulSets daemonSets
    = Normal suggestions →
  ascendingByValue suggestions
  ∧ NoDup (map Suggestion.value suggestions).
Proof.
  intros Hsuggest.
  destruct (suggestedSelectors_summary _ _ _ _ _ Hsuggest)
    as (appMap & (Hnodup & Hsound & _) & Hperm & Hsorted).
  split; [exact Hsorted|].
  rewrite Hperm, map_map. simpl.
  erewrite map_ext_in; [exact Hnodup|].
  intros [[name key] value] Hin. simpl.
  apply list_elem_of_In in Hin. by destruct (Hsound _ _ _ Hin) as [-> _].
Qed.

Lemma suggestedSelectors_sorted_distinct_witness :
  ascendingByValue
    [Suggestion.mk "app.kubernetes.io/name" "cart"; Suggestion.mk "app" "shop"].
Proof.
  apply (suggestedSelectors_sorted_distinct
           (Some [shopDeployment; cartStatefulSet]) None
           (Some [shopDeployment]) None).
  vm_compute. reflexivity.
Defined.

(** X21: every suggestion comes from a resource of the four lists: its
    label is a key of [APP_LABEL_KEYS], its value is not empty, and some
    resource carries that label with that value, so that the selector which
    a click on the suggestion adds, [Equals value] under that label, accepts
    at least this resource. *)
Theorem suggestedSelectors_sound
    (deployments replicaSets statefulSets daemonSets
       : option (list KubeObject.t)) (suggestions : list Suggestion.t)
    (suggestion : Suggestion.t) :
  suggestedSelectors deployments replicaSets statefulSets daemonSets
    = Normal suggestions →
  suggestion ∈ suggestions →
  Suggestion.label suggestion ∈ APP_LABEL_KEYS
  ∧ Suggestion.value suggestion ≠ ""
  ∧ ∃ r,
      r ∈ allResources deployments replicaSets statefulSets daemonSets
      ∧ resourceLabels r !! Suggestion.label suggestion =
        Some (Suggestion.value suggestion)
      ∧ matchesLabelSelector r (Suggestion.label suggestion)
          (StringSelector.mk "Equals" (Suggestion.value suggestion)) = true.
Proof.
  intros Hsuggest Hin.
  destruct (suggestedSelectors_summary _ _ _ _ _ Hsuggest)
    as (appMap & (_ & Hsound & _) & Hperm & _).
  rewrite Hperm in Hin. apply list_elem_of_fmap in Hin
    as ([[name key] value] & -> & Hin). simpl.
  destruct (Hsound _ _ _ Hin) as [-> (r & Hr & Hget)].
  destruct (getAppName_first_aux r _ Hget)
    as (before & after & Hkeys & _ & Hlabel & Hne & _). simpl in *.
  split; [|split; [exact Hne|]].
  - rewrite Hkeys. apply elem_of_app. right. by left.
  - exists r. split; [exact Hr|]. split; [exact Hlabel|].
    unfold matchesLabelSelector. simpl. by apply bool_decide_eq_true.
Qed.

Lemma suggestedSelectors_sound_witness :
  ∃ r,
    r ∈ allResources (Some [shopDeployment; cartStatefulSet]) None
          (Some [shopDeployment]) None
    ∧ resourceLabels r !! "app.kubernetes.io/name" = Some "cart"
    ∧ matchesLabelSelector r "app.kubernetes.io/name"
        (StringSelector.mk "Equals" "cart") = true.
Proof.
  apply (suggestedSelectors_sound
           (Some [shopDeployment; cartStatefulSet]) None
           (Some [shopDeployment]) None
           [Suggestion.mk "app.kubernetes.io/name" "cart";
            Suggestion.mk "app" "shop"]
           (Suggestion.mk "app.kubernetes.io/name" "cart")).
  - vm_compute. reflexivity.
  - by left.
Defined.

(** X22: no application is left out: for every resource of the four lists
    in which [getAppName] finds an application name there is a suggestion
    with that name as its value. *)
Theorem suggestedSelectors_complete
    (deployments replicaSets statefulSets daemonSets
       : option (list KubeObject.t)) (suggestions : list Suggestion.t)
    (resource : KubeObject.t) (info : AppInfo.t) :
  suggestedSelectors deployments replicaSets statefulSets daemonSets
    = Normal suggestions →
  resource ∈ allResources deployments replicaSets statefulSets daemonSets →
  getAppName resource = Normal (Some info) →
  ∃ suggestion,
    suggestion ∈ suggestions
    ∧ Suggestion.value suggestion = AppInfo.appName info.
Proof.
  intros Hsuggest Hin Hget.
  destruct (suggestedSelectors_summary _ _ _ _ _ Hsuggest)
    as (appMap & (_ & Hsound & Hcover) & Hperm & _).
  destruct (Hcover _ _ Hin Hget) as (key & value & Hentry).
  exists (Suggestion.mk key value). split.
  - rewrite Hperm. apply list_elem_of_fmap.
    by exists (AppInfo.appName info, key, value).
  - simpl. by destruct (Hsound _ _ _ Hentry) as [-> _].
Qed.

Lemma suggestedSelectors_complete_witness :
  ∃ suggestion,
    suggestion ∈ [Suggestion.mk "app.kubernetes.io/name" "cart";
                  Suggestion.mk "app" "shop"]
    ∧ Suggestion.value suggestion = "cart".
Proof.
  apply (suggestedSelectors_complete
           (Some [shopDeployment; cartStatefulSet]) None
           (Some [shopDeployment]) None _ cartStatefulSet
           (AppInfo.mk "cart" "app.kubernetes.io/name" "cart")).
  - vm_compute. reflexivity.
  - right. by left.
  - vm_compute. reflexivity.
Defined.

(** X23: the computation of the suggestions raises exactly when one of the
    listed resources has no [metadata]; while all four lists are still
    [null] it yields no suggestion. *)
Theorem suggestedSelectors_raises
    (deployments replicaSets statefulSets daemonSets
       : option (list KubeObject.t)) :
  (suggestedSelectors deployments replicaSets statefulSets daemonSets
     = TypeError ↔
   ∃ r, r ∈ allResources deployments replicaSets statefulSets daemonSets
        ∧ KubeObject.metadata r = None)
  ∧ suggestedSelectors None None None None = Normal [].
Proof.
  split; [|reflexivity].
  rewrite <- (collectApps_TypeError _ []). unfold suggestedSelectors.
  destruct (collectApps _ []); split; try discriminate; reflexivity.
Qed.

(** * ProjectResourcesTab.tsx *)

(** X24: the health column sorts and filters by the text it shows: the
    value of its [accessorFn], which returns early from the branch of the
    resource's kind, is the [healthText] that its [Cell] computes by
    assignment, for every resource. *)
Theorem healthAccessor_healthText (resource : Workload.t) :
  healthAccessor resource = healthText resource.
Proof.
  unfold healthAccessor, healthText. cbv zeta.
  repeat case_bool_decide; reflexivity.
Qed.

(** X25: for a Deployment or StatefulSet the text is "Unhealthy" exactly
    when [status.readyReplicas] is the number 0, whatever [spec.replicas]
    is, so also for a workload scaled to zero replicas; it is "Degraded"
    exactly when [readyReplicas] is not 0 and, read as 0 when absent, is
    below [spec.replicas], read likewise. A workload whose status has no
    [readyReplicas] is never "Unhealthy". *)
Theorem healthText_replicas (resource : Workload.t) :
  Workload.kind resource = "Deployment"
  ∨ Workload.kind resource = "StatefulSet" →
  (healthText resource = "Unhealthy" ↔
   Workload.status resource ≫= WorkloadStatus.readyReplicas = Some 0%Z)
  ∧ (healthText resource = "Degraded" ↔
     Workload.status resource ≫= WorkloadStatus.readyReplicas ≠ Some 0%Z
     ∧ (default 0 (Workload.status resource ≫= WorkloadStatus.readyReplicas)
        < default 0 (Workload.spec resource ≫= WorkloadSpec.replicas))%Z)
  ∧ (Workload.status resource ≫= WorkloadStatus.readyReplicas = None →
     healthText resource ≠ "Unhealthy").
Proof.
  intros Hkind. unfold healthText, isZero, fewerThan. cbv zeta.
  assert (Hbranch :
    (if bool_decide (Workload.kind resource = "Deployment") then true
     else bool_decide (Workload.kind resource = "StatefulSet")) = true).
  { destruct Hkind as [-> | ->]; reflexivity. }
  set (ready := Workload.status resource ≫= WorkloadStatus.readyReplicas).
  set (desired := Workload.spec resource ≫= WorkloadSpec.replicas).
  assert (Heq : ∀ other : string,
    (if bool_decide (Workload.kind resource = "Deployment")
     then if bool_decide (ready = Some 0%Z) then "Unhealthy"
          else if (default 0 ready <? default 0 desired)%Z then "Degraded"
               else "Healthy"
     else if bool_decide (Workload.kind resource = "StatefulSet")
          then if bool_decide (ready = Some 0%Z) then "Unhealthy"
               else if (default 0 ready <? default 0 desired)%Z
                    then "Degraded" else "Healthy"
          else other)
    = if bool_decide (ready = Some 0%Z) then "Unhealthy"
      else if (default 0 ready <? default 0 desired)%Z then "Degraded"
           else "Healthy").
  { intros other. destruct (bool_decide (Workload.kind resource = "Deployment"));
      [reflexivity|]. by rewrite Hbranch. }
  rewrite Heq. clear Heq Hbranch.
  case_bool_decide as Hzero.
  - split; [done|]. split; [split; [discriminate|tauto]|]. congruence.
  - destruct (Z.ltb_spec (default 0%Z ready) (default 0%Z desired))
      as [Hlt|Hge].
    + split; [split; [discriminate|done]|]. split; [done|]. discriminate.
    + split; [split; [discriminate|done]|].
      split; [split; [discriminate|lia]|]. discriminate.
Qed.

Lemma healthText_replicas_witness :
  healthText (deploymentWith (Some 0%Z) (Some 0%Z)) = "Unhealthy"
  ∧ healthText (deploymentWith (Some 3%Z) None) = "Degraded"
  ∧ healthText (deploymentWith (Some 3%Z) None) ≠ "Unhealthy".
Proof.
  destruct (healthText_replicas (deploymentWith (Some 0%Z) (Some 0%Z)))
    as (Hzero & _ & _); [by left|].
  destruct (healthText_replicas (deploymentWith (Some 3%Z) None))
    as (_ & Hdegraded & Habsent); [by left|].
  split; [by apply Hzero|]. split.
  - apply Hdegraded. split; [discriminate|]. simpl. lia.
  - by apply Habsent.
Defined.

(** X26: "Failed" and "Pending" are shown for Pods only, "Unhealthy" and "Degraded" for Deployments, StatefulSets and
    DaemonSets only, and a resource of any other kind is "Healthy" whatever
    its status. A Pod whose phase is "Failed" or "CrashLoopBackOff" is
    "Failed" whether or not it has a Ready condition, and any other Pod
    that is neither pending nor lacks a true Ready condition is
    "Healthy". *)
Theorem healthText_by_kind (resource : Workload.t) :
  (healthText resource = "Failed" ∨ healthText resource = "Pending" →
   Workload.kind resource = "Pod")
  ∧ (healthText resource = "Unhealthy" ∨ healthText resource = "Degraded" →
     Workload.kind resource = "Deployment"
     ∨ Workload.kind resource = "StatefulSet"
     ∨ Workload.kind resource = "DaemonSet")
  ∧ (Workload.kind resource ≠ "Deployment" →
     Workload.kind resource ≠ "StatefulSet" →
     Workload.kind resource ≠ "DaemonSet" →
     Workload.kind resource ≠ "Pod" →
     healthText resource = "Healthy")
  ∧ (Workload.kind resource = "Pod" →
     (healthText resource = "Failed" ↔
      Workload.status resource ≫= WorkloadStatus.phase = Some "Failed"
      ∨ Workload.status resource ≫= WorkloadStatus.phase
        = Some "CrashLoopBackOff")
     ∧ (healthText resource = "Healthy" ↔
        Workload.status resource ≫= WorkloadStatus.phase ≠ Some "Failed"
        ∧ Workload.status resource ≫= WorkloadStatus.phase
          ≠ Some "CrashLoopBackOff"
        ∧ Workload.status resource ≫= WorkloadStatus.phase ≠ Some "Pending"
        ∧ podReady resource = true)).
Proof.
  unfold healthText. cbv zeta.
  split; [|split; [|split]].
  - repeat case_bool_decide; try tauto;
      repeat (destruct (isZero _) || destruct (fewerThan _ _));
      intros [Htext|Htext]; discriminate Htext.
  - repeat case_bool_decide; try tauto; simpl;
      repeat (destruct (podReady _)); simpl;
      intros [Htext|Htext]; discriminate Htext.
  - intros Hd Hs Hds Hp. by rewrite !bool_decide_eq_false_2.
  - intros Hpod. rewrite Hpod. simpl.
    repeat case_bool_decide; destruct (podReady resource); simpl;
      (split; split); try discriminate; try tauto; try congruence;
      intuition congruence.
Qed.

Lemma healthText_by_kind_witness :
  healthText (Workload.mk "ConfigMap" None None) = "Healthy"
  ∧ healthText
      (Workload.mk "Pod" None
         (Some (WorkloadStatus.mk None None None (Some "Failed")
                  (Some [Condition.mk "Ready" "True"])))) = "Failed".
Proof.
  destruct (healthText_by_kind (Workload.mk "ConfigMap" None None))
    as (_ & _ & Hother & _).
  destruct (healthText_by_kind
              (Workload.mk "Pod" None
                 (Some (WorkloadStatus.mk None None None (Some "Failed")
                          (Some [Condition.mk "Ready" "True"])))))
    as (_ & _ & _ & Hpod).
  split.
  - apply Hother; discriminate.
  - apply Hpod; [reflexivity|]. by left.
Defined.

(** ** Grouping the resources by category *)

Lemma foldl_snoc {A B : Type} (f : A → B → A) (a : A) (l : list B) (x : B) :
  foldl f a (l ++ [x]) = f (foldl f a l) x.
Proof. revert a. induction l as [|y l IH]; intros a; simpl; [done|apply IH]. Qed.

Section CategoryFacts.
Context {ResourceCategory : Type} `{EqDecision ResourceCategory}.
Variable getKubeObjectCategory : KubeObject.t → ResourceCategory.

Lemma placeItem_keys (groups : list (ResourceCategory * list KubeObject.t))
    (r : KubeObject.t) :
  map fst (placeItem getKubeObjectCategory groups r) =
  if existsb (fun group => bool_decide (fst group = getKubeObjectCategory r))
       groups
  then map fst groups
  else (map fst groups ++ [getKubeObjectCategory r])%list.
Proof.
  unfold placeItem. cbv zeta. rewrite map_map.
  destruct (existsb _ groups); simpl.
  - apply map_ext. intros [c items]. simpl. by case_bool_decide.
  - rewrite <- (map_map
                 (fun group : ResourceCategory * list KubeObject.t =>
                    if bool_decide (fst group = getKubeObjectCategory r)
                    then (fst group, (snd group ++ [r])%list) else group) fst).
    rewrite map_app, map_app. simpl.
    rewrite bool_decide_eq_true_2 by done. simpl. f_equal.
    rewrite map_map. apply map_ext. intros [c items]. simpl.
    by case_bool_decide.
Qed.

Lemma placeItem_elem (groups : list (ResourceCategory * list KubeObject.t))
    (r : KubeObject.t) (category : ResourceCategory)
    (items : list KubeObject.t) :
  (category, items) ∈ placeItem getKubeObjectCategory groups r →
  (category ≠ getKubeObjectCategory r ∧ (category, items) ∈ groups)
  ∨ (category = getKubeObjectCategory r
     ∧ ((∃ before, (category, before) ∈ groups
                   ∧ items = (before ++ [r])%list)
        ∨ (¬ (category ∈ map fst groups) ∧ items = [r]))).
Proof.
  unfold placeItem. cbv zeta. intros Hin.
  apply list_elem_of_fmap in Hin as ([c before] & Heq & Hin). simpl in Heq.
  destruct (existsb _ groups) eqn:Hhas; simpl in Hin.
  - case_bool_decide as Hc; injection Heq as -> ->.
    + right. split; [done|]. left. by exists before.
    + left. by split.
  - apply elem_of_app in Hin as [Hin|Hin].
    + case_bool_decide as Hc; injection Heq as -> ->; [|left; by split].
      exfalso. assert (Hyes : existsb
                 (fun group => bool_decide (fst group = getKubeObjectCategory r))
                 groups = true); [|congruence].
      apply existsb_elem_of. exists (c, before). split; [done|].
      by apply bool_decide_eq_true.
    + apply list_elem_of_singleton in Hin as [= -> ->].
      rewrite bool_decide_eq_true_2 in Heq by done. injection Heq as -> ->.
      right. split; [done|]. right. split; [|done].
      intros Hkey. apply list_elem_of_fmap in Hkey as ([c items'] & Hc & Hg).
      simpl in Hc. subst c.
      assert (Hyes : existsb
                 (fun group => bool_decide (fst group = getKubeObjectCategory r))
                 groups = true); [|congruence].
      apply existsb_elem_of. exists (getKubeObjectCategory r, items').
      split; [done|]. by apply bool_decide_eq_true.
Qed.

Lemma placeItem_groupedBy (placed : list KubeObject.t)
    (groups : list (ResourceCategory * list KubeObject.t)) (r : KubeObject.t) :
  groupedBy getKubeObjectCategory placed groups →
  groupedBy getKubeObjectCategory (placed ++ [r])
    (placeItem getKubeObjectCategory groups r).
Proof.
  intros (Hnodup & Hitems & Hcover).
  assert (Hhas : existsb
            (fun group => bool_decide (fst group = getKubeObjectCategory r))
            groups = true ↔ getKubeObjectCategory r ∈ map fst groups).
  { rewrite existsb_elem_of. split.
    - intros ([c items] & Hin & Hc). apply bool_decide_eq_true in Hc.
      simpl in Hc. subst c. apply list_elem_of_fmap.
      by exists (getKubeObjectCategory r, items).
    - intros Hin. apply list_elem_of_fmap in Hin as ([c items] & Hc & Hin).
      simpl in Hc. subst c. exists (getKubeObjectCategory r, items).
      split; [done|]. by apply bool_decide_eq_true. }
  split; [|split].
  - rewrite placeItem_keys. destruct (existsb _ groups) eqn:Hex; [done|].
    apply NoDup_app. split; [done|]. split; [|apply NoDup_singleton].
    intros c Hc Hnew. apply list_elem_of_singleton in Hnew as ->.
    apply Hhas in Hc. congruence.
  - intros category items Hin. rewrite List.filter_app. simpl.
    apply placeItem_elem in Hin
      as [[Hne Hin]|[-> [(before & Hin & ->)|[Hfresh ->]]]].
    + destruct (Hitems _ _ Hin) as [-> Hnonempty].
      rewrite bool_decide_eq_false_2 by done. by rewrite app_nil_r.
    + destruct (Hitems _ _ Hin) as [-> Hnonempty].
      rewrite bool_decide_eq_true_2 by done. split; [done|].
      by destruct (List.filter _ placed).
    + rewrite bool_decide_eq_true_2 by done. split; [|done].
      assert (Hnone : List.filter
                (fun r0 => bool_decide
                   (getKubeObjectCategory r0 = getKubeObjectCategory r))
                placed = []); [|by rewrite Hnone].
      destruct (List.filter _ placed) as [|r0 l] eqn:Hf; [done|]. exfalso.
      assert (Hr0 : In r0 (List.filter
                (fun r0 => bool_decide
                   (getKubeObjectCategory r0 = getKubeObjectCategory r))
                placed)) by (rewrite Hf; by left).
      apply filter_In in Hr0 as [Hr0 Hc]. apply bool_decide_eq_true in Hc.
      apply Hfresh. rewrite <- Hc. by apply Hcover, list_elem_of_In.
  - intros r0 Hr0. rewrite placeItem_keys.
    apply elem_of_app in Hr0 as [Hr0|Hr0].
    + specialize (Hcover _ Hr0).
      destruct (existsb _ groups); [done|]. apply elem_of_app. by left.
    + apply list_elem_of_singleton in Hr0 as ->.
      destruct (existsb _ groups) eqn:Hex; [by apply Hhas|].
      apply elem_of_app. right. by apply list_elem_of_singleton.
Qed.

Lemma foldl_placeItem_groupedBy (projectResources : list KubeObject.t) :
  groupedBy getKubeObjectCategory projectResources
    (foldl (placeItem getKubeObjectCategory) [] projectResources).
Proof.
  induction projectResources as [|r rs IH] using rev_ind.
  - split; [constructor|]. split.
    + intros c items Hin. by apply elem_of_nil in Hin.
    + intros r Hr. by apply elem_of_nil in Hr.
  - rewrite foldl_snoc. by apply placeItem_groupedBy.
Qed.

End CategoryFacts.

(** X27: [resourceCategories] sorts the project's resources into groups, one
    for each category met and no two for the same category. A group holds
    exactly the resources of its category, in the order of the input, and
    at least one; its health is [getResourcesHealth] of these. Every
    resource is in the group of its category and in no other. *)
Theorem resourceCategories_partition {ResourceCategory : Type}
    `{EqDecision ResourceCategory}
    (getKubeObjectCategory : KubeObject.t → ResourceCategory)
    (getStatus : KubeObject.t → string)
    (projectResources : list KubeObject.t) :
  NoDup (map fst
           (resourceCategories getKubeObjectCategory getStatus
              projectResources))
  ∧ (∀ category items health,
       (category, (items, health))
         ∈ resourceCategories getKubeObjectCategory getStatus
             projectResources →
       items = List.filter
                 (fun r => bool_decide (getKubeObjectCategory r = category))
                 projectResources
       ∧ items ≠ []
       ∧ health = getResourcesHealth getStatus items)
  ∧ (∀ r, r ∈ projectResources →
       ∃ items health,
         (getKubeObjectCategory r, (items, health))
           ∈ resourceCategories getKubeObjectCategory getStatus
               projectResources
         ∧ r ∈ items)
  ∧ (∀ r category items health,
       (category, (items, health))
         ∈ resourceCategories getKubeObjectCategory getStatus
             projectResources →
       r ∈ items → category = getKubeObjectCategory r).
Proof.
  destruct (foldl_placeItem_groupedBy getKubeObjectCategory projectResources)
    as (Hnodup & Hitems & Hcover).
  unfold resourceCategories.
  assert (Hgroup : ∀ category items health,
            (category, (items, health))
              ∈ map (fun group =>
                       (fst group,
                        (snd group, getResourcesHealth getStatus (snd group))))
                  (foldl (placeItem getKubeObjectCategory) []
                     projectResources) →
            (category, items)
              ∈ foldl (placeItem getKubeObjectCategory) [] projectResources
            ∧ health = getResourcesHealth getStatus items).
  { intros category items health Hin.
    apply list_elem_of_fmap in Hin as ([c its] & [= -> -> ->] & Hin).
    by split. }
  split; [|split; [|split]].
  - rewrite map_map. simpl. exact Hnodup.
  - intros category items health Hin.
    apply Hgroup in Hin as [Hin ->]. destruct (Hitems _ _ Hin) as [Hf Hne].
    by repeat split.
  - intros r Hr. specialize (Hcover r Hr).
    apply list_elem_of_fmap in Hcover as ([c items] & Hc & Hin).
    simpl in Hc. subst c.
    exists items, (getResourcesHealth getStatus items). split.
    + apply list_elem_of_fmap.
      by exists (getKubeObjectCategory r, items).
    + destruct (Hitems _ _ Hin) as [-> _].
      apply list_elem_of_In, filter_In. split; [by apply list_elem_of_In|].
      by apply bool_decide_eq_true.
  - intros r category items health Hin Hr.
    apply Hgroup in Hin as [Hin _]. destruct (Hitems _ _ Hin) as [-> _].
    apply list_elem_of_In, filter_In in Hr as [_ Hr].
    by apply bool_decide_eq_true in Hr.
Qed.

Lemma resourceCategories_partition_witness :
  ∃ items health,
    (KubeObject.kind cartStatefulSet, (items, health))
      ∈ resourceCategories KubeObject.kind sampleStatus
          [shopDeployment; cartStatefulSet; otherNamespaceDeployment]
    ∧ cartStatefulSet ∈ items.
Proof.
  destruct (resourceCategories_partition KubeObject.kind sampleStatus
              [shopDeployment; cartStatefulSet; otherNamespaceDeployment])
    as (_ & _ & Hin & _).
  apply Hin. right. by left.
Defined.

(** * ProjectCreateFromYaml.tsx *)





(** * useProjectResources.ts *)

Lemma setToArray_spec (values : list string) :
  NoDup (setToArray values) ∧ ∀ x, x ∈ setToArray values ↔ x ∈ values.
Proof.
  unfold setToArray.
  induction values as [|v vs [IHnodup IHmem]] using rev_ind.
  - split; [constructor|done].
  - rewrite foldl_snoc. case_bool_decide as Hseen.
    + split; [exact IHnodup|]. intros x. rewrite elem_of_app, IHmem.
      rewrite list_elem_of_singleton. split; [tauto|].
      intros [Hx | ->]; [done|]. by apply IHmem.
    + split.
      * apply NoDup_app. split; [done|]. split; [|apply NoDup_singleton].
        intros x Hx Hv. apply list_elem_of_singleton in Hv as ->. done.
      * intros x. rewrite !elem_of_app, IHmem. tauto.
Qed.

(** X29: the clusters from which [useProjectResources] loads the items are
    the non-empty values of the projects' cluster selectors, each once. So
    every resource that a project with cluster selectors matches is in a
    cluster that is loaded from (unless its cluster name is empty), while
    projects that have no cluster selector, though they match resources of
    any cluster, add no cluster to load from. *)
Theorem allProjectClusters_cover (projectsArray : list ProjectDefinition.t) :
  NoDup (allProjectClusters projectsArray)
  ∧ (∀ cluster,
       cluster ∈ allProjectClusters projectsArray ↔
       cluster ≠ ""
       ∧ ∃ p selector,
           p ∈ projectsArray
           ∧ selector ∈ ProjectDefinition.clusterSelectors p
           ∧ StringSelector.value selector = cluster)
  ∧ (∀ p resource,
       p ∈ projectsArray →
       ProjectDefinition.clusterSelectors p ≠ [] →
       matchesProject resource p = true →
       KubeObject.cluster resource ≠ "" →
       KubeObject.cluster resource ∈ allProjectClusters projectsArray)
  ∧ ((∀ p, p ∈ projectsArray → ProjectDefinition.clusterSelectors p = []) →
     allProjectClusters projectsArray = []).
Proof.
  unfold allProjectClusters.
  destruct (setToArray_spec
              (flat_map
                 (fun p =>
                    List.filter (fun value => negb (bool_decide (value = "")))
                      (map StringSelector.value
                         (ProjectDefinition.clusterSelectors p)))
                 projectsArray)) as [Hnodup Hmem].
  assert (Hin : ∀ cluster,
            cluster ∈ flat_map
                        (fun p =>
                           List.filter
                             (fun value => negb (bool_decide (value = "")))
                             (map StringSelector.value
                                (ProjectDefinition.clusterSelectors p)))
                        projectsArray ↔
            cluster ≠ ""
            ∧ ∃ p selector,
                p ∈ projectsArray
                ∧ selector ∈ ProjectDefinition.clusterSelectors p
                ∧ StringSelector.value selector = cluster).
  { intros cluster. rewrite list_elem_of_In, in_flat_map. split.
    - intros (p & Hp & Hc). apply filter_In in Hc as [Hc Hne].
      apply negb_true_iff, bool_decide_eq_false in Hne.
      apply in_map_iff in Hc as (selector & Hv & Hs).
      split; [done|]. exists p, selector.
      split; [by apply list_elem_of_In|]. split; [by apply list_elem_of_In|done].
    - intros (Hne & p & selector & Hp & Hs & Hv). exists p.
      split; [by apply list_elem_of_In|]. apply filter_In. split.
      + apply in_map_iff. exists selector. split; [done|].
        by apply list_elem_of_In.
      + by apply negb_true_iff, bool_decide_eq_false. }
  split; [exact Hnodup|]. split; [|split].
  - intros cluster. by rewrite Hmem.
  - intros p resource Hp Hne Hmatch Hcluster. apply Hmem, Hin.
    split; [done|].
    apply matchesProject_true_iff in Hmatch as [(_ & Hcl & _) _].
    destruct (Hcl Hne) as (selector & Hs & Hv). by exists p, selector.
  - intros Hnone. apply elem_of_nil_inv. intros cluster Hc.
    apply Hmem, Hin in Hc as (_ & p & selector & Hp & Hs & _).
    rewrite (Hnone p Hp) in Hs. by apply elem_of_nil in Hs.
Qed.

Lemma allProjectClusters_cover_witness :
  KubeObject.cluster shopDeployment
    ∈ allProjectClusters [notShopProject; shopProject]
  ∧ allProjectClusters [notShopProject; emptyProject] = [].
Proof.
  destruct (allProjectClusters_cover [notShopProject; shopProject])
    as (_ & _ & Hcover & _).
  destruct (allProjectClusters_cover [notShopProject; emptyProject])
    as (_ & _ & _ & Hnone).
  split.
  - apply (Hcover shopProject shopDeployment).
    + right. by left.
    + discriminate.
    + vm_compute. reflexivity.
    + discriminate.
  - apply Hnone. intros p Hp.
    apply elem_of_cons in Hp as [->|Hp]; [reflexivity|].
    apply list_elem_of_singleton in Hp as ->. reflexivity.
Defined.

(** * ProjectForm.tsx: suggestions and the preview *)




